(** * Telegraphy: the typed dispatch core of [src/index.ts] and [src/src/http.ts]

    A shallow embedding of the feature / remote proxy / route / router code,
    together with the parts of the JavaScript platform that the code relies
    on: plain values, [JSON.stringify], [JSON.parse], ordinary property reads
    on plain objects, and promises seen as computations that either resolve
    or reject. *)

From Stdlib Require Import String Ascii ZArith List Lia Decimal DecimalN.
From stdpp Require Import base strings gmap list.

Local Open Scope string_scope.
Local Open Scope list_scope.
Set Warnings "-register-all".

(** ** JavaScript values

    The values that travel through the dispatch core: [undefined], [null],
    booleans, numbers, strings, arrays and plain objects.  A finite number is
    an integral double, written as the integer it denotes; [NaN] and the two
    infinities are kept because [JSON.stringify] treats them specially.  An
    object is the list of its own enumerable properties in enumeration
    order.  A string is the sequence of its code units, here 8 bits wide. *)

Inductive number : Type :=
| Int (z : Z)
| NaN
| Infinity (negative : bool).

Inductive Value : Type :=
| VUndefined
| VNull
| VBool (b : bool)
| VNumber (n : number)
| VString (s : string)
| VArray (elems : list Value)
| VObject (props : list (string * Value)).

(** Structural induction that also reaches the elements of arrays and the
    property values of objects. *)
Section ValueInduction.
Variable P : Value -> Prop.
Hypothesis Hundefined : P VUndefined.
Hypothesis Hnull : P VNull.
Hypothesis Hbool : forall b, P (VBool b).
Hypothesis Hnumber : forall n, P (VNumber n).
Hypothesis Hstring : forall s, P (VString s).
Hypothesis Harray : forall l, Forall P l -> P (VArray l).
Hypothesis Hobject : forall l, Forall (fun kv => P (snd kv)) l -> P (VObject l).

Fixpoint Value_nested_ind (v : Value) : P v :=
  match v with
  | VUndefined => Hundefined
  | VNull => Hnull
  | VBool b => Hbool b
  | VNumber n => Hnumber n
  | VString s => Hstring s
  | VArray l =>
      Harray l
        ((fix go (l : list Value) : Forall P l :=
            match l with
            | [] => List.Forall_nil P
            | x :: l' => List.Forall_cons P x l' (Value_nested_ind x) (go l')
            end) l)
  | VObject l =>
      Hobject l
        ((fix go (l : list (string * Value)) : Forall (fun kv => P (snd kv)) l :=
            match l with
            | [] => List.Forall_nil _
            | kv :: l' =>
                List.Forall_cons (fun kv => P (snd kv)) kv l'
                  (Value_nested_ind (snd kv)) (go l')
            end) l)
  end.
End ValueInduction.

(** Ordinary property read [o[k]] on a value: the own property of an object,
    [undefined] otherwise.  (None of the keys read from values in this file
    is a member of [Object.prototype].) *)
Fixpoint assoc (k : string) (props : list (string * Value)) : option Value :=
  match props with
  | [] => None
  | (k', v) :: rest => if String.eqb k k' then Some v else assoc k rest
  end.

Definition get_field (v : Value) (k : string) : Value :=
  match v with
  | VObject props => default VUndefined (assoc k props)
  | _ => VUndefined
  end.

(** Property write [o[k] = v]: replaces the value of an existing own
    property in place, appends a new property otherwise. *)
Fixpoint set_prop (k : string) (v : Value) (props : list (string * Value))
  : list (string * Value) :=
  match props with
  | [] => [(k, v)]
  | (k', v') :: rest =>
      if String.eqb k k' then (k', v) :: rest else (k', v') :: set_prop k v rest
  end.

(** ** Failures

    What a [throw] carries, and what a rejected promise is rejected with:
    [new Error(message)], the engine's [TypeError] and [SyntaxError], and the
    error raised by the schema library when a value does not validate. *)

Inductive Error : Type :=
| PlainError (message : string)
| TypeError (message : string)
| SyntaxError (message : string)
| SchemaError (message : string).

Inductive Result (A : Type) : Type :=
| Ok (a : A)
| Err (e : Error).

Arguments Ok {A} a.
Arguments Err {A} e.

(** ** Text *)

Definition text := list ascii.

Definition chars (s : string) : text := list_ascii_of_string s.

Fixpoint digits (d : uint) : text :=
  match d with
  | Nil => []
  | D0 d => "0"%char :: digits d
  | D1 d => "1"%char :: digits d
  | D2 d => "2"%char :: digits d
  | D3 d => "3"%char :: digits d
  | D4 d => "4"%char :: digits d
  | D5 d => "5"%char :: digits d
  | D6 d => "6"%char :: digits d
  | D7 d => "7"%char :: digits d
  | D8 d => "8"%char :: digits d
  | D9 d => "9"%char :: digits d
  end.

(** Number::toString on an integral value. *)
Definition integer_text (z : Z) : text :=
  if (z <? 0)%Z then "-"%char :: digits (N.to_uint (Z.abs_N z))
  else digits (N.to_uint (Z.abs_N z)).

(** The abstract operation ToString, as applied by [JSON.parse] to its
    argument. *)
Fixpoint ToString (v : Value) : string :=
  match v with
  | VUndefined => "undefined"
  | VNull => "null"
  | VBool true => "true"
  | VBool false => "false"
  | VNumber (Int z) => string_of_list_ascii (integer_text z)
  | VNumber NaN => "NaN"
  | VNumber (Infinity false) => "Infinity"
  | VNumber (Infinity true) => "-Infinity"
  | VString s => s
  | VArray l =>
      String.concat ","
        (map (fun e => match e with
                       | VUndefined | VNull => ""
                       | _ => ToString e
                       end) l)
  | VObject _ => "[object Object]"
  end.

(** ** JSON *)

Module JSON.

Definition DQUOTE : ascii := "034"%char.
Definition BACKSLASH : ascii := "092"%char.
Definition BS : ascii := "008"%char.
Definition TAB : ascii := "009"%char.
Definition LF : ascii := "010"%char.
Definition FF : ascii := "012"%char.
Definition CR : ascii := "013"%char.

(** *** Serialisation: the text produced by [JSON.stringify] *)

(** Non-finite numbers are serialised as [null]. *)
Definition number_text (n : number) : text :=
  match n with
  | Int z => integer_text z
  | NaN | Infinity _ => chars "null"
  end.

Definition hex_digit (n : N) : ascii :=
  nth (N.to_nat n) (chars "0123456789abcdef") "0"%char.

(** QuoteJSONString, one code unit at a time. *)
Definition escape_char (c : ascii) : text :=
  if Ascii.eqb c DQUOTE then [BACKSLASH; DQUOTE]
  else if Ascii.eqb c BACKSLASH then [BACKSLASH; BACKSLASH]
  else if Ascii.eqb c BS then [BACKSLASH; "b"%char]
  else if Ascii.eqb c TAB then [BACKSLASH; "t"%char]
  else if Ascii.eqb c LF then [BACKSLASH; "n"%char]
  else if Ascii.eqb c FF then [BACKSLASH; "f"%char]
  else if Ascii.eqb c CR then [BACKSLASH; "r"%char]
  else if (N_of_ascii c <? 32)%N then
    [BACKSLASH; "u"%char; "0"%char; "0"%char;
     hex_digit (N_of_ascii c / 16); hex_digit (N_of_ascii c mod 16)]
  else [c].

Fixpoint escape (s : text) : text :=
  match s with
  | [] => []
  | c :: s' => escape_char c ++ escape s'
  end.

Definition quote (s : string) : text :=
  DQUOTE :: escape (chars s) ++ [DQUOTE].

Fixpoint join_comma (items : list text) : text :=
  match items with
  | [] => []
  | [t] => t
  | t :: rest => t ++ ","%char :: join_comma rest
  end.

(** SerializeJSONProperty: [None] stands for the result [undefined].  An
    array element without a serialisation is written [null]; an object
    property without one is left out. *)
Fixpoint serialize (v : Value) : option text :=
  match v with
  | VUndefined => None
  | VNull => Some (chars "null")
  | VBool true => Some (chars "true")
  | VBool false => Some (chars "false")
  | VNumber n => Some (number_text n)
  | VString s => Some (quote s)
  | VArray l =>
      Some ("["%char
              :: join_comma (map (fun e => default (chars "null") (serialize e)) l)
              ++ ["]"%char])
  | VObject l =>
      Some ("{"%char
              :: join_comma
                   (omap (fun kv => match serialize (snd kv) with
                                    | Some t => Some (quote (fst kv) ++ ":"%char :: t)
                                    | None => None
                                    end) l)
              ++ ["}"%char])
  end.

(** [JSON.stringify(v)]: a string, or [undefined] when [v] has no
    serialisation. *)
Definition stringify (v : Value) : Value :=
  match serialize v with
  | Some t => VString (string_of_list_ascii t)
  | None => VUndefined
  end.

(** *** Parsing: the grammar accepted by [JSON.parse]

    Numbers are read in their integral form only: a fraction or exponent
    part denotes a number outside the integral fragment of [number], and a
    [\u] escape above 255 a code unit outside the 8-bit fragment of
    [string]; such texts get no value here. *)

Definition is_ws (c : ascii) : bool :=
  Ascii.eqb c " "%char || Ascii.eqb c TAB || Ascii.eqb c LF || Ascii.eqb c CR.

Fixpoint skip_ws (s : text) : text :=
  match s with
  | [] => []
  | c :: r => if is_ws c then skip_ws r else s
  end.

Fixpoint strip_prefix (p s : text) : option text :=
  match p, s with
  | [], _ => Some s
  | _ :: _, [] => None
  | a :: p', b :: s' => if Ascii.eqb a b then strip_prefix p' s' else None
  end.

Definition digit_of (c : ascii) : option (uint -> uint) :=
  if Ascii.eqb c "0"%char then Some D0
  else if Ascii.eqb c "1"%char then Some D1
  else if Ascii.eqb c "2"%char then Some D2
  else if Ascii.eqb c "3"%char then Some D3
  else if Ascii.eqb c "4"%char then Some D4
  else if Ascii.eqb c "5"%char then Some D5
  else if Ascii.eqb c "6"%char then Some D6
  else if Ascii.eqb c "7"%char then Some D7
  else if Ascii.eqb c "8"%char then Some D8
  else if Ascii.eqb c "9"%char then Some D9
  else None.

Fixpoint read_digits (s : text) : uint * text :=
  match s with
  | [] => (Nil, [])
  | c :: r =>
      match digit_of c with
      | Some d => let (u, r') := read_digits r in (d u, r')
      | None => (Nil, s)
      end
  end.

(** The integer part of a JSON number: at least one digit, and no leading
    zero in front of further digits. *)
Definition read_nat (s : text) : option (N * text) :=
  let (u, r) := read_digits s in
  if uint_beq (unorm u) u then Some (N.of_uint u, r) else None.

Definition read_number (s : text) : option (number * text) :=
  match s with
  | [] => None
  | c :: r =>
      if Ascii.eqb c "-"%char then
        match read_nat r with
        | Some (n, r') => Some (Int (- Z.of_N n), r')
        | None => None
        end
      else
        match read_nat s with
        | Some (n, r') => Some (Int (Z.of_N n), r')
        | None => None
        end
  end.

Definition hex_value (c : ascii) : option N :=
  let n := N_of_ascii c in
  if ((48 <=? n) && (n <=? 57))%N then Some (n - 48)%N
  else if ((97 <=? n) && (n <=? 102))%N then Some (n - 87)%N
  else if ((65 <=? n) && (n <=? 70))%N then Some (n - 55)%N
  else None.

Definition unicode_escape (a b c d : ascii) : option ascii :=
  match hex_value a, hex_value b, hex_value c, hex_value d with
  | Some x, Some y, Some z, Some w =>
      let n := (((x * 16 + y) * 16 + z) * 16 + w)%N in
      if (n <? 256)%N then Some (ascii_of_N n) else None
  | _, _, _, _ => None
  end.

Definition simple_escape (e : ascii) : option ascii :=
  if Ascii.eqb e DQUOTE then Some DQUOTE
  else if Ascii.eqb e BACKSLASH then Some BACKSLASH
  else if Ascii.eqb e "/"%char then Some "/"%char
  else if Ascii.eqb e "b"%char then Some BS
  else if Ascii.eqb e "f"%char then Some FF
  else if Ascii.eqb e "n"%char then Some LF
  else if Ascii.eqb e "r"%char then Some CR
  else if Ascii.eqb e "t"%char then Some TAB
  else None.

Definition push {A B : Type} (a : A) (o : option (list A * B)) : option (list A * B) :=
  match o with
  | Some (l, r) => Some (a :: l, r)
  | None => None
  end.

(** The characters of a string literal after its opening quote, up to and
    including the closing quote. *)
Fixpoint read_string (s : text) : option (text * text) :=
  match s with
  | [] => None
  | c :: r =>
      if Ascii.eqb c DQUOTE then Some ([], r)
      else if Ascii.eqb c BACKSLASH then
        match r with
        | [] => None
        | e :: r1 =>
            if Ascii.eqb e "u"%char then
              match r1 with
              | a :: b :: c' :: d :: r2 =>
                  match unicode_escape a b c' d with
                  | Some ch => push ch (read_string r2)
                  | None => None
                  end
              | _ => None
              end
            else
              match simple_escape e with
              | Some ch => push ch (read_string r1)
              | None => None
              end
        end
      else if (N_of_ascii c <? 32)%N then None
      else push c (read_string r)
  end.

(** Properties are created in the order of the text; a repeated key
    overwrites the value of the earlier one. *)
Definition build_object (members : list (string * Value)) : list (string * Value) :=
  fold_left (fun acc kv => set_prop (fst kv) (snd kv) acc) members [].

Fixpoint parse_value (fuel : nat) (s : text) : option (Value * text) :=
  match fuel with
  | O => None
  | S fuel =>
      match skip_ws s with
      | [] => None
      | c :: r =>
          if Ascii.eqb c "n"%char then
            match strip_prefix (chars "ull") r with
            | Some r' => Some (VNull, r')
            | None => None
            end
          else if Ascii.eqb c "t"%char then
            match strip_prefix (chars "rue") r with
            | Some r' => Some (VBool true, r')
            | None => None
            end
          else if Ascii.eqb c "f"%char then
            match strip_prefix (chars "alse") r with
            | Some r' => Some (VBool false, r')
            | None => None
            end
          else if Ascii.eqb c DQUOTE then
            match read_string r with
            | Some (str, r') => Some (VString (string_of_list_ascii str), r')
            | None => None
            end
          else if Ascii.eqb c "["%char then
            match skip_ws r with
            | [] => None
            | c' :: r' =>
                if Ascii.eqb c' "]"%char then Some (VArray [], r')
                else
                  match parse_elements fuel r with
                  | Some (vs, r'') => Some (VArray vs, r'')
                  | None => None
                  end
            end
          else if Ascii.eqb c "{"%char then
            match skip_ws r with
            | [] => None
            | c' :: r' =>
                if Ascii.eqb c' "}"%char then Some (VObject [], r')
                else
                  match parse_members fuel r with
                  | Some (ms, r'') => Some (VObject (build_object ms), r'')
                  | None => None
                  end
            end
          else
            match read_number (c :: r) with
            | Some (n, r') => Some (VNumber n, r')
            | None => None
            end
      end
  end
with parse_elements (fuel : nat) (s : text) : option (list Value * text) :=
  match fuel with
  | O => None
  | S fuel =>
      match parse_value fuel s with
      | None => None
      | Some (v, r) =>
          match skip_ws r with
          | [] => None
          | c :: r' =>
              if Ascii.eqb c ","%char then push v (parse_elements fuel r')
              else if Ascii.eqb c "]"%char then Some ([v], r')
              else None
          end
      end
  end
with parse_members (fuel : nat) (s : text) : option (list (string * Value) * text) :=
  match fuel with
  | O => None
  | S fuel =>
      match skip_ws s with
      | [] => None
      | q :: r =>
          if Ascii.eqb q DQUOTE then
            match read_string r with
            | None => None
            | Some (k, r1) =>
                match skip_ws r1 with
                | [] => None
                | c1 :: r2 =>
                    if Ascii.eqb c1 ":"%char then
                      match parse_value fuel r2 with
                      | None => None
                      | Some (v, r3) =>
                          match skip_ws r3 with
                          | [] => None
                          | c3 :: r4 =>
                              if Ascii.eqb c3 ","%char then
                                push (string_of_list_ascii k, v) (parse_members fuel r4)
                              else if Ascii.eqb c3 "}"%char then
                                Some ([(string_of_list_ascii k, v)], r4)
                              else None
                          end
                      end
                    else None
                end
            end
          else None
      end
  end.

(** A whole text: one value, then nothing but white space. *)
Definition parse_text (s : text) : option Value :=
  match parse_value (length s) s with
  | Some (v, r) =>
      match skip_ws r with
      | [] => Some v
      | _ :: _ => None
      end
  | None => None
  end.

(** [JSON.parse(v)]: the argument is converted to a string first; a text
    outside the grammar throws a [SyntaxError]. *)
Definition parse (v : Value) : Result Value :=
  match parse_text (chars (ToString v)) with
  | Some x => Ok x
  | None => Err (SyntaxError "Unexpected token in JSON")
  end.

End JSON.

(** ** Schemas

    The schema library is used through [S.parseOrThrow(value, schema)] only:
    a schema is what that call does to a value, returning the validated
    (possibly coerced) value or throwing. *)

Definition Schema : Type := Value -> Result Value.

(** [S.unknown] accepts every value unchanged; [S.string] accepts strings. *)
Definition S_unknown : Schema := fun v => Ok v.

Definition S_string : Schema :=
  fun v =>
    match v with
    | VString _ => Ok v
    | _ => Err (SchemaError "Expected string")
    end.

(** [S.number] rejects [NaN]. *)
Definition S_number : Schema :=
  fun v =>
    match v with
    | VNumber NaN => Err (SchemaError "Expected number")
    | VNumber _ => Ok v
    | _ => Err (SchemaError "Expected number")
    end.

Fixpoint parse_fields (shape : list (string * Schema)) (v : Value)
  : Result (list (string * Value)) :=
  match shape with
  | [] => Ok []
  | (k, s) :: shape' =>
      match s (get_field v k) with
      | Err e => Err e
      | Ok x =>
          match parse_fields shape' v with
          | Err e => Err e
          | Ok rest => Ok ((k, x) :: rest)
          end
      end
  end.

(** [S.schema({ k1: s1, ... })]: an object whose declared fields validate;
    undeclared properties are dropped. *)
Definition S_schema (shape : list (string * Schema)) : Schema :=
  fun v =>
    match v with
    | VObject _ =>
        match parse_fields shape v with
        | Ok props => Ok (VObject props)
        | Err e => Err e
        end
    | _ => Err (SchemaError "Expected object")
    end.

(** [export type Callable<I, O> = { input: I; output: O }] *)
Record Callable : Type := { input : Schema; output : Schema }.

(** [transform(input).to(output)] *)
Record Transform : Type := { to : Schema -> Callable }.

Definition transform (input : Schema) : Transform :=
  {| to := fun output => {| input := input; output := output |} |}.

(** [export type AnyFeature = { name: string; schema: Record<string, Callable> }] *)
Record AnyFeature : Type := { name : string; schema : gmap string Callable }.

(** [export const feature = (name, schema) => ({ name, schema })] *)
Definition feature (name : string) (schema : gmap string Callable) : AnyFeature :=
  {| name := name; schema := schema |}.

(** ** Property reads on plain objects

    [schema], [routes] and the implementation object are plain objects used
    as maps, and the code reads them with [o[k]] for an arbitrary string
    [k].  Such a read finds the own property [k] when there is one and
    otherwise continues in [Object.prototype], whose members are all truthy
    (functions, and for [__proto__] the prototype object itself); only a
    name found in neither place reads as [undefined]. *)

Definition Object_prototype : list string :=
  ["constructor"; "__defineGetter__"; "__defineSetter__"; "hasOwnProperty";
   "__lookupGetter__"; "__lookupSetter__"; "isPrototypeOf";
   "propertyIsEnumerable"; "toString"; "valueOf"; "__proto__";
   "toLocaleString"].

Inductive Property (A : Type) : Type :=
| Own (a : A)
| Inherited (k : string)
| Absent.

Arguments Own {A} a.
Arguments Inherited {A} k.
Arguments Absent {A}.

Definition get {A : Type} (o : gmap string A) (k : string) : Property A :=
  match o !! k with
  | Some a => Own a
  | None => if bool_decide (k ∈ Object_prototype) then Inherited k else Absent
  end.

(** [const { input, output } = callable]: throws on [undefined]; a member of
    [Object.prototype] has neither property, so both names are bound to
    [undefined]. *)
Definition destructure (callable : Property Callable)
  : Result (option Schema * option Schema) :=
  match callable with
  | Own c => Ok (Some (input c), Some (output c))
  | Inherited _ => Ok (None, None)
  | Absent =>
      Err (TypeError "Cannot destructure property 'input' of 'callable' as it is undefined.")
  end.

(** [export type CableInput = S.Infer<typeof cableSchema>] *)
Module CableInput.
Record t : Type := { feature : string; method : string; input : Value }.
End CableInput.

Definition as_string (v : Value) : Result string :=
  match v with
  | VString s => Ok s
  | _ => Err (SchemaError "Expected string")
  end.

(** [cableSchema = S.schema({ feature: S.string, method: S.string, input: S.unknown })],
    as [S.parseOrThrow(payload, cableSchema)] with its result typed as
    [CableInput]: the payload must be an object whose [feature] and [method]
    are strings; [input] is taken as it is. *)
Definition cableSchema (payload : Value) : Result CableInput.t :=
  match payload with
  | VObject _ =>
      match as_string (get_field payload "feature") with
      | Err e => Err e
      | Ok f =>
          match as_string (get_field payload "method") with
          | Err e => Err e
          | Ok m =>
              Ok {| CableInput.feature := f;
                    CableInput.method := m;
                    CableInput.input := get_field payload "input" |}
          end
      end
  | _ => Err (SchemaError "Expected object")
  end.

(** ** Collaborators

    The cable, the implementation factory, the implementation methods,
    [fetch], the members of [Object.prototype] and the wording of the errors
    of the schema library and of [Headers] are supplied from outside.
    They run against the host state [St] (whatever [ctx], the auth object
    and the network stand for) and return or throw. *)

Definition Ext (St A : Type) : Type := St -> Result A * St.

(** ** Headers

    The [Headers] object of the Fetch standard, as far as [new Headers()]
    and [headers.set(name, value)] go: a list of name and value pairs.
    [set] strips leading and trailing HTTP white space from the value,
    throws a [TypeError] unless the name is a token and the stripped value
    has no NUL, line feed or carriage return, and then replaces the value of
    the first header of that name (names compare without regard to case,
    further headers of that name are removed) or appends a new header.
    A string of this development has only characters below 256, so the
    conversion of name and value to byte strings never fails. *)

Definition Headers : Type := list (string * string).

Definition NUL : ascii := "000"%char.

Definition is_http_whitespace (c : ascii) : bool :=
  Ascii.eqb c JSON.TAB || Ascii.eqb c JSON.LF || Ascii.eqb c JSON.CR || Ascii.eqb c " "%char.

Fixpoint strip_leading (s : text) : text :=
  match s with
  | [] => []
  | c :: r => if is_http_whitespace c then strip_leading r else s
  end.

Definition normalize_value (value : string) : string :=
  string_of_list_ascii (rev (strip_leading (rev (strip_leading (chars value))))).

Definition is_header_value (value : string) : bool :=
  forallb (fun c => negb (Ascii.eqb c NUL || Ascii.eqb c JSON.LF || Ascii.eqb c JSON.CR))
    (chars value).

Definition in_range (lo hi : N) (c : ascii) : bool :=
  ((lo <=? N_of_ascii c) && (N_of_ascii c <=? hi))%N.

(** The [tchar] of a field name: a letter, a digit, or one of
    [! # $ % & ' * + - . ^ _ ` | ~]. *)
Definition is_tchar (c : ascii) : bool :=
  in_range 65 90 c || in_range 97 122 c || in_range 48 57 c
  || existsb (Ascii.eqb c)
       ["!"; "#"; "$"; "%"; "&"; "'"; "*"; "+"; "-"; "."; "^"; "_"; "`"; "|"; "~"]%char.

Definition is_header_name (name : string) : bool :=
  negb (String.eqb name "") && forallb is_tchar (chars name).

Definition lower (c : ascii) : ascii :=
  if in_range 65 90 c then ascii_of_N (N_of_ascii c + 32) else c.

Definition same_name (a b : string) : bool :=
  bool_decide (map lower (chars a) = map lower (chars b)).

Fixpoint header_list_set (name value : string) (headers : Headers) : Headers :=
  match headers with
  | [] => [(name, value)]
  | (n, v) :: rest =>
      if same_name n name then
        (n, value) :: filter (fun h => negb (same_name (fst h) name)) rest
      else (n, v) :: header_list_set name value rest
  end.

Module RequestInit.
Record t : Type := { headers : Headers; method : string; body : Value }.
End RequestInit.

Record Response (St : Type) : Type :=
  { ok : bool; statusText : string; json : Ext St Value }.

Arguments ok {St} r.
Arguments statusText {St} r.
Arguments json {St} r.

Class Platform (Ctx St : Type) : Type :=
  { (** [fetch(endpoint, init)] *)
    fetch : string -> RequestInit.t -> Ext St (Response St);
    (** a function-valued member of [Object.prototype], called with a
        this-value ([None] for [undefined]) and arguments *)
    Object_prototype_call : string -> option Ctx -> list Value -> Ext St Value;
    (** what [S.parseOrThrow(value, undefined)] throws: the schema library
        cannot parse without a schema, and the error it raises then (its
        class and its message) depends on the version of the library *)
    parse_without_schema : Value -> Error;
    (** the message of the [TypeError] that [headers.set(name, value)]
        throws for an invalid name or value; the standard fixes the class
        of the error only *)
    invalid_header : string -> string -> string }.

(** ** The dispatch core *)

Section Core.
Context {Ctx St : Type} `{Platform Ctx St}.

(** Every application of a collaborator is recorded, the way a test spy
    records the calls made to a mock. *)
Inductive Event : Type :=
| CableCall (feature method : string) (input : Value)
| RouteCall (feature : string) (ctx : Ctx) (method : string) (arg : Value)
| FactoryCall (ctx : Ctx)
| MethodCall (method : string) (input : Value)
| FetchCall (endpoint : string) (init : RequestInit.t).

Record World : Type := { trace : list Event; host : St }.

(** An [async] function body: from a world to a resolution or a rejection
    and the world it leaves behind. *)
Definition M (A : Type) : Type := World -> Result A * World.

Definition ret {A : Type} (a : A) : M A := fun w => (Ok a, w).

Definition throw {A : Type} (e : Error) : M A := fun w => (Err e, w).

Definition bind {A B : Type} (m : M A) (k : A -> M B) : M B :=
  fun w =>
    match m w with
    | (Ok a, w') => k a w'
    | (Err e, w') => (Err e, w')
    end.

(** A synchronous step that returns or throws. *)
Definition settle {A : Type} (r : Result A) : M A := fun w => (r, w).

Definition run {A : Type} (e : Ext St A) : M A :=
  fun w =>
    let (r, s) := e (host w) in
    (r, {| trace := trace w; host := s |}).

Definition emit (ev : Event) : M unit :=
  fun w => (Ok tt, {| trace := trace w ++ [ev]; host := host w |}).

(** A call to a collaborator: recorded, then performed. *)
Definition spy {A : Type} (ev : Event) (m : M A) : M A :=
  bind (emit ev) (fun _ => m).

Local Notation "x <- m ;; k" := (bind m (fun x => k))
  (at level 100, m at next level, right associativity).

(** [export type Cable = (feature, method, input) => Promise<unknown> | unknown] *)
Definition Cable : Type := string -> string -> Value -> M Value.

(** Calling [f(args...)] or [f.call(this, args...)] where [f] was read from
    [Object.prototype] under the name [k]: [__proto__] is the prototype
    object, which is not callable and has no [call]; the other members are
    functions. *)
Definition call_inherited (k callee : string) (this : option Ctx) (args : list Value)
  : M Value :=
  if String.eqb k "__proto__" then throw (TypeError (callee +:+ " is not a function"))
  else run (Object_prototype_call k this args).

(** [S.parseOrThrow(value, schema)], also when the schema read from a
    callable is [undefined]: the library then throws an error of its own,
    the host's [parse_without_schema]. *)
Definition parseOrThrow (value : Value) (schema : option Schema) : Result Value :=
  match schema with
  | Some s => s value
  | None => Err (parse_without_schema value)
  end.

(** *** [makeRemote]: the proxy's [get] trap, applied to a property name

    Property names are strings here, so [String(method)] is [method]. *)
Definition makeRemote (feature : AnyFeature) (cable : Cable) : string -> Value -> M Value :=
  let featureName := name feature in
  let schema := schema feature in
  fun method =>
    let callable := get schema method in
    fun arg =>
      io <- settle (destructure callable) ;;
      let (input, output) := io : option Schema * option Schema in
      parsedInput <- settle (parseOrThrow arg input) ;;
      result <- spy (CableCall featureName method parsedInput)
                    (cable featureName method parsedInput) ;;
      settle (parseOrThrow result output).

(** [export type Route<Ctx> = { call: (ctx, method, arg) => Promise<unknown> }] *)
Record Route : Type := { call : Ctx -> string -> Value -> M Value }.

(** The object returned by the implementation factory. *)
Definition Implementation : Type := gmap string (Value -> Ext St Value).

(** *** [makeRoute] *)
Definition makeRoute (feature : AnyFeature) (implFn : Ctx -> Ext St Implementation) : Route :=
  let schema := schema feature in
  {| call := fun ctx method arg =>
       let callable := get schema method in
       match callable with
       | Absent => throw (PlainError ("Method " +:+ method +:+ " not found"))
       | _ =>
           io <- settle (destructure callable) ;;
           let (input, output) := io : option Schema * option Schema in
           parsedInput <- settle (parseOrThrow arg input) ;;
           impl <- spy (FactoryCall ctx) (run (implFn ctx)) ;;
           let fn := get impl method in
           result <-
             match fn with
             | Absent =>
                 throw (PlainError ("Method implementation for " +:+ name feature
                                      +:+ "." +:+ method +:+ " not found"))
             | Own f => spy (MethodCall method parsedInput) (run (f parsedInput))
             | Inherited k => call_inherited k "fn" None [parsedInput]
             end ;;
           validated <- settle (parseOrThrow result output) ;;
           ret (JSON.stringify validated)
       end |}.

(** *** [makeRouter] *)
Definition makeRouter (routes : gmap string Route) : Ctx -> Value -> M Value :=
  fun ctx payload =>
    parsed <- settle (cableSchema payload) ;;
    let feature := CableInput.feature parsed in
    let method := CableInput.method parsed in
    let input := CableInput.input parsed in
    let route := get routes feature in
    match route with
    | Absent => throw (PlainError ("Feature " +:+ feature +:+ " not found"))
    | Own r => spy (RouteCall feature ctx method input) (call r ctx method input)
    | Inherited k => call_inherited k "route.call" (Some ctx) [VString method; input]
    end.

(** [!x] for [x : string | undefined] or [string | null]: true on the
    missing value and on the empty string. *)
Definition falsy (x : option string) : bool :=
  match x with
  | None => true
  | Some s => String.eqb s ""
  end.

(** [auth: { token: string | null }] is an object shared with the caller;
    the cable reads its [token] each time it is invoked. *)
Definition Auth : Type := St -> option string.

Definition read_token (auth : Auth) : M (option string) :=
  fun w => (Ok (auth (host w)), w).

Definition envelope (feature method : string) (input : Value) : Value :=
  VObject [("feature", VString feature); ("method", VString method); ("input", input)].

(** [headers.set(name, value)] *)
Definition Headers_set (name value : string) (headers : Headers) : Result Headers :=
  if is_header_name name && is_header_value (normalize_value value) then
    Ok (header_list_set name (normalize_value value) headers)
  else Err (TypeError (invalid_header name value)).

(** *** [makeCable] ([src/index.ts]) *)
Definition makeCable (endpoint : option string) (auth : Auth) : Result Cable :=
  if falsy endpoint then Err (PlainError "Backend endpoint is not set")
  else
    Ok (fun feature method input =>
          token <- read_token auth ;;
          if falsy token then
            throw (PlainError "User not authenticated, cannot call cable without a token")
          else
            let headers : Headers := [] in
            headers <- settle (Headers_set "Content-Type" "application/json" headers) ;;
            headers <- settle (Headers_set "Authorization" ("Bearer " +:+ default "" token)
                                 headers) ;;
            let payload := envelope feature method input in
            response <-
              spy (FetchCall (default "" endpoint)
                     {| RequestInit.headers := headers;
                        RequestInit.method := "POST";
                        RequestInit.body := JSON.stringify payload |})
                  (run (fetch (default "" endpoint)
                          {| RequestInit.headers := headers;
                             RequestInit.method := "POST";
                             RequestInit.body := JSON.stringify payload |})) ;;
            if negb (ok response) then
              throw (PlainError ("Failed to call " +:+ feature +:+ "." +:+ method
                                   +:+ ": " +:+ statusText response))
            else run (json response)).

(** *** [httpCable] ([src/src/http.ts]) *)
Definition httpCable (endpoint : option string) (auth : Auth) : Result Cable :=
  if falsy endpoint then Err (PlainError "Backend endpoint is not set")
  else
    Ok (fun feature method input =>
          token <- read_token auth ;;
          if falsy token then
            throw (PlainError "User not authenticated, cannot call cable without a token")
          else
            let headers : Headers := [] in
            headers <- settle (Headers_set "Content-Type" "application/json" headers) ;;
            headers <- settle (Headers_set "Authorization" ("Bearer " +:+ default "" token)
                                 headers) ;;
            response <-
              spy (FetchCall (default "" endpoint)
                     {| RequestInit.headers := headers;
                        RequestInit.method := "POST";
                        RequestInit.body := JSON.stringify (envelope feature method input) |})
                  (run (fetch (default "" endpoint)
                          {| RequestInit.headers := headers;
                             RequestInit.method := "POST";
                             RequestInit.body :=
                               JSON.stringify (envelope feature method input) |})) ;;
            if negb (ok response) then
              throw (PlainError ("Failed to call " +:+ feature +:+ "." +:+ method
                                   +:+ ": " +:+ statusText response))
            else run (json response)).

(** *** A cable wired directly to a router ([src/test/schema.spec.ts]):
    [const payload = { feature, method, input };
     const result = await router(ctx, payload);
     return JSON.parse(result as string);] *)
Definition routerCable (router : Ctx -> Value -> M Value) (ctx : Ctx) : Cable :=
  fun feature method input =>
    let payload := envelope feature method input in
    result <- router ctx payload ;;
    settle (JSON.parse result).

End Core.

Arguments Event Ctx : clear implicits.
Arguments World Ctx St : clear implicits.
Arguments M Ctx St A : clear implicits.
Arguments Cable Ctx St : clear implicits.
Arguments Route Ctx St : clear implicits.
Arguments Implementation St : clear implicits.
Arguments Auth St : clear implicits.

(** ** Reading the trace *)

Definition factory_calls {Ctx : Type} (tr : list (Event Ctx)) : list Ctx :=
  omap (fun ev => match ev with FactoryCall c => Some c | _ => None end) tr.

Definition record {Ctx St : Type} (ev : Event Ctx) (w : World Ctx St) : World Ctx St :=
  {| trace := trace w ++ [ev]; host := host w |}.

(** The implementation method [m] of [implFn(ctx)], called with
    [parsedInput] from the host state [s], returns [result]. *)
Definition implementation_returns {Ctx St : Type} `{Platform Ctx St}
    (implFn : Ctx -> Ext St (Implementation St)) (ctx : Ctx) (m : string)
    (parsedInput : Value) (s : St) (result : Value) : Prop :=
  exists impl s1,
    implFn ctx s = (Ok impl, s1) /\
    match get impl m with
    | Own f => fst (f parsedInput s1) = Ok result
    | Inherited k =>
        String.eqb k "__proto__" = false /\
        fst (Object_prototype_call k None [parsedInput] s1) = Ok result
    | Absent => False
    end.

(** ** Values that survive serialisation

    A value is representable when [JSON.stringify] loses nothing of it: no
    [undefined], no [NaN] or infinity anywhere inside.  (Every object is
    also required to be a genuine one, with no property name listed
    twice.) *)

Fixpoint representable (v : Value) : bool :=
  match v with
  | VUndefined => false
  | VNull | VBool _ | VString _ => true
  | VNumber (Int _) => true
  | VNumber _ => false
  | VArray l => forallb representable l
  | VObject l =>
      forallb (fun kv => representable (snd kv)) l && bool_decide (NoDup (map fst l))
  end.

(** The text written for an array element, and for an object member. *)
Definition element_text (v : Value) : text := default (chars "null") (JSON.serialize v).

Definition member_text (kv : string * Value) : text :=
  JSON.quote (fst kv) ++ ":"%char :: element_text (snd kv).

(** What may follow a number in a text without being read as part of it. *)
Definition nondigit (rest : text) : Prop :=
  match rest with
  | c :: _ => JSON.digit_of c = None
  | [] => True
  end.

Definition number_start (c : ascii) : bool :=
  Ascii.eqb c "-"%char || match JSON.digit_of c with Some _ => true | None => false end.

(** Reading back the text of [v], whatever follows it. *)
Definition round_trips (v : Value) : Prop :=
  representable v = true ->
  forall fuel rest, length (element_text v) <= fuel -> nondigit rest ->
    JSON.parse_value fuel (element_text v ++ rest) = Some (v, rest).

(** [s] occurs inside [message]. *)
Definition contains (message s : string) : Prop :=
  exists before after, message = before +:+ s +:+ after.

(** ** Sample features, implementations and hosts

    The features of the test suites and of the README, used below to run the
    core on concrete inputs. *)

(** A host without network, and with a context that is a plain object.
    Of the members of [Object.prototype] this host models [toString]; a call
    to any other member is rendered as a throw.  Its schema library answers
    a missing schema with a [TypeError], and its [Headers] an invalid value
    with a message that names the header; both stand for what the installed
    library and platform raise. *)
Definition sample_host (Ctx St : Type) : Platform Ctx St :=
  {| fetch := fun _ _ s => (Err (TypeError "fetch failed"), s);
     Object_prototype_call := fun k this _ s =>
       if String.eqb k "toString" then
         match this with
         | Some _ => (Ok (VString "[object Object]"), s)
         | None => (Ok (VString "[object Undefined]"), s)
         end
       else (Err (TypeError "Object.prototype member outside the sample host"), s);
     parse_without_schema := fun _ => TypeError "Cannot read properties of undefined";
     invalid_header := fun name _ => "Invalid value for header " +:+ name |}.

(** *** [crew]: the route test and the end-to-end scenario *)

Definition officerSchema : Schema :=
  S_schema [("id", S_number); ("name", S_string); ("rank", S_string)].

Definition crewFeature : AnyFeature :=
  feature "crew"
    {[ "getOfficer" := to (transform (S_schema [("id", S_number)])) officerSchema ]}.

(** [ctx.officers], a [Map] from ids to officers. *)
Definition Officers : Type := list (Z * Value).

Definition picard : Value :=
  VObject [("id", VNumber (Int 1)); ("name", VString "Picard"); ("rank", VString "Captain")].

Definition enterprise : Officers := [(1%Z, picard)].

Fixpoint Map_get (officers : Officers) (id : Value) : Value :=
  match officers with
  | [] => VUndefined
  | (k, o) :: rest =>
      match id with
      | VNumber (Int z) => if (z =? k)%Z then o else Map_get rest id
      | _ => VUndefined
      end
  end.

(** [{ id: 1 }] *)
Definition id1 : Value := VObject [("id", VNumber (Int 1))].

(** [(ctx) => ({ getOfficer: async (input) => ctx.officers.get(input.id)! })] *)
Definition crewImpl (ctx : Officers) : Ext unit (Implementation unit) :=
  fun s =>
    (Ok {[ "getOfficer" := fun input s' => (Ok (Map_get ctx (get_field input "id")), s') ]}, s).

Definition crewRoute : Route Officers unit :=
  @makeRoute Officers unit (sample_host Officers unit) crewFeature crewImpl.

Definition crewRouter : Officers -> Value -> M Officers unit Value :=
  @makeRouter Officers unit (sample_host Officers unit) {[ "crew" := crewRoute ]}.

Definition fresh : World Officers unit := {| trace := []; host := tt |}.

(** The same implementation behind a factory that counts its applications:
    [let built = 0;
     (ctx) => { built++; return { getOfficer: async (input) => ... } }].
    The state of this host is the counter. *)
Definition countedImpl (ctx : Officers) : Ext nat (Implementation nat) :=
  fun built =>
    (Ok {[ "getOfficer" := fun input s' => (Ok (Map_get ctx (get_field input "id")), s') ]},
     S built).

Definition countedRoute : Route Officers nat :=
  @makeRoute Officers nat (sample_host Officers nat) crewFeature countedImpl.

(** *** [log]: a method that returns nothing *)

Definition logFeature : AnyFeature :=
  feature "log" {[ "write" := to (transform S_unknown) S_unknown ]}.

(** [(ctx) => ({ write: async (input) => {} })] *)
Definition logImpl (ctx : unit) : Ext unit (Implementation unit) :=
  fun s => (Ok {[ "write" := fun input s' => (Ok VUndefined, s') ]}, s).

Definition logRoute : Route unit unit :=
  @makeRoute unit unit (sample_host unit unit) logFeature logImpl.

Definition logRouter : unit -> Value -> M unit unit Value :=
  @makeRouter unit unit (sample_host unit unit) {[ "log" := logRoute ]}.

Definition quiet : World unit unit := {| trace := []; host := tt |}.

(** *** [user]: the remote proxy test and its mock cable *)

Definition userFeature : AnyFeature :=
  feature "user"
    {[ "getProfile" := to (transform (S_schema [("id", S_number)]))
                          (S_schema [("id", S_number); ("name", S_string)]) ]}.

(** [vi.fn(async (feature, method, input) => ...)] *)
Definition mockCable (feature method : string) (input : Value) : Ext unit Value :=
  fun s =>
    if String.eqb feature "user" && String.eqb method "getProfile" then
      (Ok (VObject [("id", get_field input "id"); ("name", VString "John Doe")]), s)
    else (Ok VNull, s).

(** *** A cable whose auth object holds the token in the host state *)

Definition sampleCable : Result (Cable unit (option string)) :=
  @makeCable unit (option string) (sample_host unit (option string))
    (Some "https://api.example.com/rpc") (fun token => token).

Definition signed_out : World unit (option string) := {| trace := []; host := None |}.

(** *** [text]: methods over a coercing schema

    [S.transform(S.string, s => s.length)] accepts a string and returns its
    length, so a value it has validated does not validate again. *)

Definition S_transform (s : Schema) (parser : Value -> Value) : Schema :=
  fun v =>
    match s v with
    | Ok x => Ok (parser x)
    | Err e => Err e
    end.

Definition string_length (v : Value) : Value :=
  match v with
  | VString s => VNumber (Int (Z.of_nat (String.length s)))
  | _ => VUndefined
  end.

Definition lengthSchema : Schema := S_transform S_string string_length.

Definition textFeature : AnyFeature :=
  feature "text"
    {[ "measure" := to (transform lengthSchema) S_unknown;
       "describe" := to (transform S_unknown) lengthSchema ]}.

(** [(ctx) => ({ measure: async (n) => n, describe: async () => "abc" })] *)
Definition textImpl (ctx : unit) : Ext unit (Implementation unit) :=
  fun s =>
    (Ok {[ "measure" := fun input s' => (Ok input, s');
           "describe" := fun input s' => (Ok (VString "abc"), s') ]}, s).

Definition textRouter : unit -> Value -> M unit unit Value :=
  @makeRouter unit unit (sample_host unit unit)
    {[ "text" := @makeRoute unit unit (sample_host unit unit) textFeature textImpl ]}.

(** ** The request of a cable

    The value that [headers.set] stores for [`Bearer ${token}`]: the text
    without its trailing white space.  The cable can send a token only when
    this value is a header value, with no NUL, line feed or carriage
    return. *)
Definition bearer (token : string) : string := normalize_value ("Bearer " +:+ token).

(** The [init] object that [makeCable] and [httpCable] hand to [fetch] for
    the token read from the auth object. *)
Definition cable_request (token feature method : string) (input : Value) : RequestInit.t :=
  {| RequestInit.headers :=
       [("Content-Type", "application/json"); ("Authorization", bearer token)];
     RequestInit.method := "POST";
     RequestInit.body := JSON.stringify (envelope feature method input) |}.

(** *** More samples: a mocked [fetch], a throwing method, a bare
    implementation, a throwing factory, a router over two features *)

(** [mockFetch.mockResolvedValue(response)] *)
Definition mock_host (Ctx St : Type) (response : Response St) : Platform Ctx St :=
  {| fetch := fun _ _ s => (Ok response, s);
     Object_prototype_call := @Object_prototype_call Ctx St (sample_host Ctx St);
     parse_without_schema := @parse_without_schema Ctx St (sample_host Ctx St);
     invalid_header := @invalid_header Ctx St (sample_host Ctx St) |}.

(** [{ ok: true, json: async () => ({ success: true }) }] *)
Definition success_response : Response (option string) :=
  {| ok := true; statusText := "OK";
     json := fun s => (Ok (VObject [("success", VBool true)]), s) |}.

(** [{ ok: false, statusText: "Internal Server Error" }] *)
Definition failure_response : Response (option string) :=
  {| ok := false; statusText := "Internal Server Error";
     json := fun s => (Err (TypeError "response.json is not a function"), s) |}.

Definition signed_in : World unit (option string) :=
  {| trace := []; host := Some "test-token-123" |}.

Definition id42 : Value := VObject [("id", VNumber (Int 42))].

(** [(ctx) => ({ getProfile: async (input) => {
       const user = ctx.db.users.get(input.id);
       if (!user) throw new Error("User not found");
       return user; } })] *)
Definition userImpl (ctx : Officers) : Ext unit (Implementation unit) :=
  fun s =>
    (Ok {[ "getProfile" := fun input s' =>
             match Map_get ctx (get_field input "id") with
             | VUndefined => (Err (PlainError "User not found"), s')
             | user => (Ok user, s')
             end ]}, s).

Definition alice : Value := VObject [("id", VNumber (Int 1)); ("name", VString "Alice")].

Definition users : Officers := [(1%Z, alice)].

Definition userRoute : Route Officers unit :=
  @makeRoute Officers unit (sample_host Officers unit) userFeature userImpl.

(** [(ctx) => ({})]: no method is bound. *)
Definition bareImpl (ctx : Officers) : Ext unit (Implementation unit) :=
  fun s => (Ok ∅, s).

(** [(ctx) => { throw new Error("Unauthorized"); }] *)
Definition lockedImpl (ctx : Officers) : Ext unit (Implementation unit) :=
  fun s => (Err (PlainError "Unauthorized"), s).

(** [makeRouter({ crew: crewRoute, user: userRoute })] and
    [makeRouter({ user: userRoute })] *)
Definition stationRoutes : gmap string (Route Officers unit) :=
  {[ "crew" := crewRoute; "user" := userRoute ]}.

Definition userRoutes : gmap string (Route Officers unit) :=
  {[ "user" := userRoute ]}.

(** Cables over a mocked [fetch]. *)
Definition mockedCable (response : Response (option string))
  : Result (Cable unit (option string)) :=
  @makeCable unit (option string) (mock_host unit (option string) response)
    (Some "https://api.example.com/rpc") (fun token => token).

Definition crewRoutes : gmap string (Route Officers unit) := {[ "crew" := crewRoute ]}.

(** * Reading back what [JSON.stringify] wrote *)

Import JSON.

(** *** Numbers *)

(** The digits written for [d] are read back as [d], up to the first
    character that is not a digit. *)
Lemma read_digits_digits (d : uint) (rest : text) :
  nondigit rest -> read_digits (digits d ++ rest) = (d, rest).
Proof.
  intros Hr. induction d as [| d IH | d IH | d IH | d IH | d IH | d IH | d IH | d IH | d IH | d IH];
    simpl; try (rewrite IH; reflexivity).
  destruct rest as [| c r]; simpl; [reflexivity |]. simpl in Hr. rewrite Hr. reflexivity.
Qed.

(** The decimal form of a number has no leading zero. *)
Lemma to_uint_normal (n : N) : unorm (N.to_uint n) = N.to_uint n.
Proof.
  rewrite <- (DecimalN.Unsigned.of_to n) at 2. symmetry. apply DecimalN.Unsigned.to_of.
Qed.

Lemma read_nat_digits (n : N) (rest : text) :
  nondigit rest -> read_nat (digits (N.to_uint n) ++ rest) = Some (n, rest).
Proof.
  intros Hr. unfold read_nat. rewrite read_digits_digits by exact Hr.
  rewrite to_uint_normal. rewrite Decimal.internal_uint_dec_lb by reflexivity.
  rewrite DecimalN.Unsigned.of_to. reflexivity.
Qed.

(** *** Strings *)

(** Reading one escaped code unit gives the code unit back. *)
Lemma escape_char_step (c : ascii) (tl : text) :
  read_string (escape_char c ++ tl) = push c (read_string tl).
Proof.
  destruct c as [b0 b1 b2 b3 b4 b5 b6 b7].
  destruct b0, b1, b2, b3, b4, b5, b6, b7; reflexivity.
Qed.

Lemma read_string_escape (s rest : text) :
  read_string (escape s ++ DQUOTE :: rest) = Some (s, rest).
Proof.
  induction s as [| c s IH]; simpl.
  - reflexivity.
  - rewrite <- app_assoc, escape_char_step, IH. reflexivity.
Qed.

(** *** The first character of a value's text *)
Lemma digits_head (u : uint) :
  unorm u = u -> exists c r, digits u = c :: r /\ digit_of c <> None.
Proof.
  destruct u; simpl; intros H; try discriminate H; eexists _, _; (split; [reflexivity | discriminate]).
Qed.

Lemma number_text_head (z : Z) :
  exists c r, number_text (Int z) = c :: r /\ number_start c = true.
Proof.
  unfold number_text, integer_text. destruct (z <? 0)%Z.
  - eexists _, _. split; reflexivity.
  - destruct (digits_head _ (to_uint_normal (Z.abs_N z))) as (c & r & -> & Hc).
    exists c, r. split; [reflexivity |]. unfold number_start.
    destruct (digit_of c); [apply orb_true_r | congruence].
Qed.

Lemma read_number_text (z : Z) (rest : text) :
  nondigit rest -> read_number (number_text (Int z) ++ rest) = Some (Int z, rest).
Proof.
  intros Hr. unfold number_text, integer_text. destruct (z <? 0)%Z eqn:Hz.
  - simpl. rewrite read_nat_digits by exact Hr. do 3 f_equal. lia.
  - destruct (digits_head _ (to_uint_normal (Z.abs_N z))) as (c & r & E & Hc).
    unfold read_number. rewrite E. simpl.
    replace (Ascii.eqb c "-"%char) with false.
    + rewrite app_comm_cons, <- E, read_nat_digits by exact Hr. do 3 f_equal. lia.
    + symmetry. apply Ascii.eqb_neq. intros ->. apply Hc. reflexivity.
Qed.

(** A text that opens with a sign or a digit is read as a number. *)
Lemma parse_value_number_start (fuel : nat) (c : ascii) (r : text) :
  number_start c = true ->
  parse_value (S fuel) (c :: r) =
    match read_number (c :: r) with
    | Some (n, r') => Some (VNumber n, r')
    | None => None
    end.
Proof.
  destruct c as [b0 b1 b2 b3 b4 b5 b6 b7].
  destruct b0, b1, b2, b3, b4, b5, b6, b7; intros H; try discriminate H; reflexivity.
Qed.

Lemma parse_value_number (fuel : nat) (z : Z) (rest : text) :
  nondigit rest ->
  parse_value (S fuel) (number_text (Int z) ++ rest) = Some (VNumber (Int z), rest).
Proof.
  intros Hr. destruct (number_text_head z) as (c & r & E & Hc).
  pose proof (read_number_text z rest Hr) as Hn. rewrite E in *. simpl app in *.
  rewrite parse_value_number_start by exact Hc. rewrite Hn. reflexivity.
Qed.

Lemma number_start_opens (c : ascii) :
  number_start c = true ->
  is_ws c = false /\ Ascii.eqb c "]"%char = false /\ Ascii.eqb c "}"%char = false.
Proof.
  destruct c as [b0 b1 b2 b3 b4 b5 b6 b7].
  destruct b0, b1, b2, b3, b4, b5, b6, b7; intros H; try discriminate H; repeat split.
Qed.

Lemma element_text_head (v : Value) :
  representable v = true ->
  exists c r, element_text v = c :: r /\ is_ws c = false /\ Ascii.eqb c "]"%char = false
              /\ Ascii.eqb c "}"%char = false.
Proof.
  destruct v as [| | [] | [z | |] | s | l | l]; simpl; intros H; try discriminate H;
    try (eexists _, _; repeat split; fail).
  destruct (number_text_head z) as (c & r & E & Hc). exists c, r.
  destruct (number_start_opens c Hc) as (? & ? & ?). unfold element_text. simpl. auto.
Qed.

(** *** Arrays *)
Lemma parse_elements_eq (f : nat) (s : text) :
  parse_elements (S f) s =
    match parse_value f s with
    | None => None
    | Some (v, r) =>
        match skip_ws r with
        | [] => None
        | c :: r' =>
            if Ascii.eqb c ","%char then push v (parse_elements f r')
            else if Ascii.eqb c "]"%char then Some ([v], r')
            else None
        end
    end.
Proof. reflexivity. Qed.

Lemma parse_elements_ok (l : list Value) :
  l <> [] -> Forall round_trips l -> forallb representable l = true ->
  forall f rest, length (join_comma (map element_text l)) + 1 <= f ->
    parse_elements f (join_comma (map element_text l) ++ "]"%char :: rest) = Some (l, rest).
Proof.
  induction l as [| v l IH]; [congruence |]. intros _ HP Hrep f rest Hf.
  apply Forall_cons in HP as [Hv HP]. simpl in Hrep. apply andb_true_iff in Hrep as [Hrv Hrl].
  destruct f as [| f]; [lia |]. rewrite parse_elements_eq.
  destruct l as [| v' l'].
  - simpl in *. rewrite (Hv Hrv); [reflexivity | lia | reflexivity].
  - change (join_comma (map element_text (v :: v' :: l')))
      with (element_text v ++ ","%char :: join_comma (map element_text (v' :: l'))) in *.
    set (J := join_comma (map element_text (v' :: l'))) in *.
    rewrite length_app in Hf. simpl in Hf.
    rewrite <- app_assoc. rewrite (Hv Hrv); [| lia | reflexivity].
    simpl. rewrite IH; [reflexivity | congruence | assumption | assumption | lia].
Qed.


(** *** Objects *)

(** A representable value has a serialisation. *)
Lemma representable_serialize (v : Value) :
  representable v = true -> serialize v = Some (element_text v).
Proof. destruct v as [| | [] | | | |]; simpl; intros H; try discriminate H; reflexivity. Qed.

Lemma omap_members (l : list (string * Value)) :
  forallb (fun kv => representable (snd kv)) l = true ->
  omap (fun kv => match serialize (snd kv) with
                  | Some t => Some (quote (fst kv) ++ ":"%char :: t)
                  | None => None
                  end) l = map member_text l.
Proof.
  induction l as [| kv l IH]; intros H; [reflexivity |].
  simpl in H. apply andb_true_iff in H as [Hv Hl].
  change (map member_text (kv :: l)) with (member_text kv :: map member_text l).
  rewrite <- (IH Hl). simpl. rewrite (representable_serialize _ Hv). reflexivity.
Qed.

Lemma member_app (k : string) (v : Value) (tail : text) :
  member_text (k, v) ++ tail = DQUOTE :: escape (chars k) ++ DQUOTE :: ":"%char :: element_text v ++ tail.
Proof. unfold member_text, quote. simpl. rewrite <- !app_assoc. reflexivity. Qed.

Lemma parse_members_step (f : nat) (k : string) (v : Value) (tail : text) :
  parse_value f (element_text v ++ tail) = Some (v, tail) ->
  parse_members (S f) (member_text (k, v) ++ tail) =
    match skip_ws tail with
    | [] => None
    | c :: r =>
        if Ascii.eqb c ","%char then push (k, v) (parse_members f r)
        else if Ascii.eqb c "}"%char then Some ([(k, v)], r)
        else None
    end.
Proof.
  intros Hv. rewrite member_app. simpl. rewrite read_string_escape. simpl.
  rewrite Hv. unfold chars. rewrite string_of_list_ascii_of_string. reflexivity.
Qed.

Lemma parse_members_ok (l : list (string * Value)) :
  l <> [] -> Forall (fun kv => round_trips (snd kv)) l ->
  forallb (fun kv => representable (snd kv)) l = true ->
  forall f rest, length (join_comma (map member_text l)) + 1 <= f ->
    parse_members f (join_comma (map member_text l) ++ "}"%char :: rest) = Some (l, rest).
Proof.
  induction l as [| [k v] l IH]; [congruence |]. intros _ HP Hrep f rest Hf.
  apply Forall_cons in HP as [Hv HP]. simpl in Hrep, Hv.
  apply andb_true_iff in Hrep as [Hrv Hrl].
  destruct f as [| f]; [lia |].
  assert (Hlen : length (member_text (k, v)) = length (quote k) + 1 + length (element_text v)).
  { unfold member_text. rewrite length_app. simpl. lia. }
  destruct l as [| kv' l'].
  - change (join_comma (map member_text [(k, v)])) with (member_text (k, v)) in *.
    rewrite Hlen in Hf. rewrite parse_members_step; [reflexivity |].
    apply (Hv Hrv); [lia | reflexivity].
  - change (join_comma (map member_text ((k, v) :: kv' :: l')))
      with (member_text (k, v) ++ ","%char :: join_comma (map member_text (kv' :: l'))) in *.
    set (J := join_comma (map member_text (kv' :: l'))) in *.
    rewrite length_app, Hlen in Hf. simpl in Hf.
    rewrite <- app_assoc. simpl app at 2.
    rewrite parse_members_step.
    + simpl. rewrite IH; [reflexivity | congruence | assumption | assumption | lia].
    + apply (Hv Hrv); [lia | reflexivity].
Qed.

(** Creating properties under distinct names, one after the other, keeps
    them in order. *)
Lemma set_prop_fresh (k : string) (v : Value) (acc : list (string * Value)) :
  k ∉ map fst acc -> set_prop k v acc = acc ++ [(k, v)].
Proof.
  induction acc as [| [k' v'] acc IH]; simpl; intros H; [reflexivity |].
  apply not_elem_of_cons in H as [Hne H].
  destruct (String.eqb_spec k k') as [-> | _]; [congruence |].
  rewrite IH by exact H. reflexivity.
Qed.

Lemma fold_set_prop (l acc : list (string * Value)) :
  NoDup (map fst (acc ++ l)) ->
  fold_left (fun acc kv => set_prop (fst kv) (snd kv) acc) l acc = acc ++ l.
Proof.
  revert acc. induction l as [| [k v] l IH]; intros acc H; simpl.
  - rewrite app_nil_r. reflexivity.
  - rewrite set_prop_fresh.
    + rewrite IH; rewrite <- app_assoc; [reflexivity | exact H].
    + rewrite map_app in H. simpl in H. apply NoDup_app in H as (_ & H & _).
      intros Hin. apply (H k Hin). left.
Qed.

Lemma build_object_nodup (l : list (string * Value)) :
  NoDup (map fst l) -> build_object l = l.
Proof. intros H. unfold build_object. rewrite fold_set_prop; [reflexivity | exact H]. Qed.

(** *** Values *)
Lemma element_text_array (l : list Value) :
  element_text (VArray l) = "["%char :: join_comma (map element_text l) ++ ["]"%char].
Proof. reflexivity. Qed.

Lemma element_text_object (l : list (string * Value)) :
  forallb (fun kv => representable (snd kv)) l = true ->
  element_text (VObject l) = "{"%char :: join_comma (map member_text l) ++ ["}"%char].
Proof. intros H. unfold element_text. simpl serialize. rewrite omap_members by exact H. reflexivity. Qed.

Lemma bracket_app (o c : ascii) (J rest : text) :
  (o :: J ++ [c]) ++ rest = o :: J ++ c :: rest.
Proof. simpl. rewrite <- app_assoc. reflexivity. Qed.

Lemma parse_value_array (f : nat) (s : text) :
  parse_value (S f) ("["%char :: s) =
    match skip_ws s with
    | [] => None
    | c' :: r' =>
        if Ascii.eqb c' "]"%char then Some (VArray [], r')
        else match parse_elements f s with
             | Some (vs, r'') => Some (VArray vs, r'')
             | None => None
             end
    end.
Proof. reflexivity. Qed.

Lemma parse_value_object (f : nat) (s : text) :
  parse_value (S f) ("{"%char :: s) =
    match skip_ws s with
    | [] => None
    | c' :: r' =>
        if Ascii.eqb c' "}"%char then Some (VObject [], r')
        else match parse_members f s with
             | Some (ms, r'') => Some (VObject (build_object ms), r'')
             | None => None
             end
    end.
Proof. reflexivity. Qed.

(** The text of a representable value is read back as that value, with
    fuel for every character of it. *)
Lemma parse_value_serialize (v : Value) : round_trips v.
Proof.
  induction v as [| | b | n | s | l IH | l IH] using Value_nested_ind;
    intros Hrep fuel rest Hf Hr; try discriminate Hrep.
  - destruct fuel; [simpl in Hf; lia | reflexivity].
  - destruct fuel; [destruct b; simpl in Hf; lia | destruct b; reflexivity].
  - destruct n as [z | |]; try discriminate Hrep.
    destruct fuel as [| fuel].
    + destruct (number_text_head z) as (c & r & E & _).
      change (element_text (VNumber (Int z))) with (number_text (Int z)) in Hf.
      rewrite E in Hf. simpl in Hf. lia.
    + apply parse_value_number. exact Hr.
  - destruct fuel; [simpl in Hf; lia |].
    change (element_text (VString s)) with (DQUOTE :: escape (chars s) ++ [DQUOTE]).
    rewrite bracket_app. simpl. rewrite read_string_escape. unfold chars.
    rewrite string_of_list_ascii_of_string. reflexivity.
  - simpl in Hrep. rewrite element_text_array in *. rewrite bracket_app.
    destruct fuel as [| fuel]; [simpl in Hf; lia |].
    simpl in Hf. rewrite length_app in Hf. simpl in Hf.
    rewrite parse_value_array.
    destruct l as [| v l]; [reflexivity |].
    destruct (element_text_head v) as (c & r & E & Hws & Hc & _).
    { simpl in Hrep. apply andb_true_iff in Hrep. tauto. }
    pose proof (parse_elements_ok (v :: l) ltac:(congruence) IH Hrep fuel rest ltac:(lia)) as Hp.
    set (J := join_comma (map element_text (v :: l)) ++ "]"%char :: rest) in *.
    assert (EJ : exists r', J = c :: r').
    { subst J. simpl. destruct (map element_text l); rewrite E; simpl; eauto. }
    destruct EJ as (r' & EJ).
    rewrite Hp. rewrite EJ. simpl. rewrite Hws, Hc. reflexivity.
  - simpl in Hrep. apply andb_true_iff in Hrep as [Hrep Hnd]. apply bool_decide_eq_true in Hnd.
    rewrite element_text_object in * by exact Hrep. rewrite bracket_app.
    destruct fuel as [| fuel]; [simpl in Hf; lia |].
    simpl in Hf. rewrite length_app in Hf. simpl in Hf.
    rewrite parse_value_object.
    destruct l as [| [k v] l]; [reflexivity |].
    pose proof (parse_members_ok ((k, v) :: l) ltac:(congruence) IH Hrep fuel rest ltac:(lia)) as Hp.
    set (J := join_comma (map member_text ((k, v) :: l)) ++ "}"%char :: rest) in *.
    assert (EJ : exists r', J = DQUOTE :: r').
    { subst J. simpl. destruct (map member_text l); simpl; eauto. }
    destruct EJ as (r' & EJ).
    rewrite Hp. rewrite EJ. simpl. rewrite build_object_nodup by exact Hnd. reflexivity.
Qed.

(** [JSON.parse] after [JSON.stringify], on texts. *)
Theorem parse_text_serialize (v : Value) (t : text) :
  representable v = true -> serialize v = Some t -> parse_text t = Some v.
Proof.
  intros Hrep Hs. rewrite (representable_serialize v Hrep) in Hs. injection Hs as <-.
  unfold parse_text. pose proof (parse_value_serialize v Hrep (length (element_text v)) [] ltac:(lia) I) as H.
  rewrite app_nil_r in H. rewrite H. reflexivity.
Qed.

(** * Properties of the dispatch core *)

Section CoreFacts.
Context {Ctx St : Type} `{Platform Ctx St}.

Implicit Types (F : AnyFeature) (w : World Ctx St) (arg : Value).

(** *** Property reads *)
Lemma get_own {A : Type} (o : gmap string A) (k : string) (a : A) :
  o !! k = Some a -> get o k = Own a.
Proof. intros E. unfold get. rewrite E. reflexivity. Qed.

Lemma get_absent {A : Type} (o : gmap string A) (k : string) :
  o !! k = None -> k ∉ Object_prototype -> get o k = Absent.
Proof.
  intros E Hk. unfold get. rewrite E. rewrite bool_decide_eq_false_2 by exact Hk. reflexivity.
Qed.

Lemma get_inherited {A : Type} (o : gmap string A) (k : string) :
  o !! k = None -> k ∈ Object_prototype -> get o k = Inherited k.
Proof.
  intros E Hk. unfold get. rewrite E. rewrite bool_decide_eq_true_2 by exact Hk. reflexivity.
Qed.

(** A declared method of the proxy: validate, one cable call, validate. *)
Lemma makeRemote_declared F (cable : Cable Ctx St) (m : string) (c : Callable) arg :
  schema F !! m = Some c ->
  makeRemote F cable m arg =
    bind (settle (input c arg)) (fun parsedInput =>
      bind (spy (CableCall (name F) m parsedInput) (cable (name F) m parsedInput))
           (fun result => settle (output c result))).
Proof.
  intros E. unfold makeRemote. rewrite (get_own _ _ _ E). reflexivity.
Qed.

(** C2.  A declared method of the remote proxy called with an argument
    that fails the input schema rejects with the schema's validation
    error and leaves the world as it was: the cable is not invoked.  When
    the argument validates, the cable is invoked exactly once, with the
    feature name, the method name and the validated input, and its result
    is validated against the output schema. *)
Theorem remote_fail_fast F (cable : string -> string -> Value -> Ext St Value)
    (m : string) (c : Callable) arg w :
  schema F !! m = Some c ->
  match input c arg with
  | Err e =>
      makeRemote F (fun f m' i => run (cable f m' i)) m arg w = (Err e, w)
  | Ok v =>
      makeRemote F (fun f m' i => run (cable f m' i)) m arg w =
        (match fst (cable (name F) m v (host w)) with
         | Ok result => output c result
         | Err e => Err e
         end,
         {| trace := trace w ++ [CableCall (name F) m v];
            host := snd (cable (name F) m v (host w)) |})
  end.
Proof.
  intros E. rewrite (makeRemote_declared F _ m c arg E).
  unfold bind, settle, spy, bind, emit, run. simpl.
  destruct (input c arg) as [v | e]; [| reflexivity].
  destruct (cable (name F) m v (host w)) as [[result | e] s]; reflexivity.
Qed.

(** C10, amended.  Any property name yields a method on the proxy.  For a
    name that is not a key of the feature's schema, calling that method
    rejects, whatever the argument, and leaves the world as it was: the
    cable is not invoked.  The rejection is the failure of destructuring
    the missing callable, or, for a name that [Object.prototype] has, the
    failure of parsing the argument against the missing input schema; it
    does not come from a check for undeclared methods. *)
Theorem remote_undeclared_method F (cable : Cable Ctx St) (m : string) arg w :
  schema F !! m = None ->
  exists e,
    makeRemote F cable m arg w = (Err e, w)
    /\ (m ∉ Object_prototype -> destructure (get (schema F) m) = Err e)
    /\ (m ∈ Object_prototype ->
          destructure (get (schema F) m) = Ok (None, None)
          /\ parseOrThrow arg None = Err e).
Proof.
  intros E. unfold makeRemote, get. rewrite E.
  destruct (bool_decide (m ∈ Object_prototype)) eqn:Em.
  - apply bool_decide_eq_true in Em. eexists. split; [reflexivity |].
    split; [intros Hm; destruct (Hm Em) | intros _; split; reflexivity].
  - apply bool_decide_eq_false in Em. eexists. split; [reflexivity |].
    split; [intros _; reflexivity | intros Hm; destruct (Em Hm)].
Qed.

(** A declared method of a route: validate, build the implementation,
    look the method up, call it, validate, serialise. *)
Lemma makeRoute_declared F (implFn : Ctx -> Ext St (Implementation St)) (ctx : Ctx)
    (m : string) (c : Callable) arg :
  schema F !! m = Some c ->
  call (makeRoute F implFn) ctx m arg =
    bind (settle (input c arg)) (fun parsedInput =>
      bind (spy (FactoryCall ctx) (run (implFn ctx))) (fun impl =>
        bind (match get impl m with
              | Absent =>
                  throw (PlainError ("Method implementation for " +:+ name F
                                       +:+ "." +:+ m +:+ " not found"))
              | Own f => spy (MethodCall m parsedInput) (run (f parsedInput))
              | Inherited k => call_inherited k "fn" None [parsedInput]
              end) (fun result =>
          bind (settle (output c result)) (fun validated =>
            ret (JSON.stringify validated))))).
Proof.
  intros E. unfold makeRoute. simpl. rewrite (get_own _ _ _ E). reflexivity.
Qed.

Lemma contains_middle (a s b : string) : contains (a +:+ s +:+ b) s.
Proof. exists a, b. reflexivity. Qed.

(** X1.  The part of C4 that holds: a method name found neither in the schema
    nor in [Object.prototype] is reported as not found, whatever the
    argument, before validation and before the factory. *)
Lemma route_unknown_method F (implFn : Ctx -> Ext St (Implementation St)) (ctx : Ctx)
    (m : string) arg w :
  schema F !! m = None -> m ∉ Object_prototype ->
  call (makeRoute F implFn) ctx m arg w
    = (Err (PlainError ("Method " +:+ m +:+ " not found")), w)
  /\ contains ("Method " +:+ m +:+ " not found") m.
Proof.
  intros E Hm. split; [| apply contains_middle].
  unfold makeRoute. simpl. rewrite (get_absent _ _ E Hm). reflexivity.
Qed.

(** A method name that the schema does not declare but [Object.prototype]
    has is not reported as not found: the guard sees a truthy value, and
    the call fails later, on the missing input schema. *)
Lemma route_inherited_method F (implFn : Ctx -> Ext St (Implementation St)) (ctx : Ctx)
    (m : string) arg w :
  schema F !! m = None -> m ∈ Object_prototype ->
  call (makeRoute F implFn) ctx m arg w = (Err (parse_without_schema arg), w).
Proof.
  intros E Hm. unfold makeRoute. simpl. rewrite (get_inherited _ _ E Hm). reflexivity.
Qed.

(** The factory calls of a trace, piecewise. *)
Lemma factory_calls_app (tr1 tr2 : list (Event Ctx)) :
  factory_calls (tr1 ++ tr2) = factory_calls tr1 ++ factory_calls tr2.
Proof. unfold factory_calls. apply omap_app. Qed.

Local Ltac trace_done :=
  cbn [trace host fst snd]; rewrite ?factory_calls_app; cbn; rewrite ?app_nil_r; reflexivity.

(** C6.  In a call of a declared method, an argument that fails the input
    schema rejects with the world untouched, so the factory is not
    applied.  An argument that validates has the factory applied to [ctx]
    exactly once in that call, whatever happened in the calls before: the
    call is one application of [implFn] to [ctx] in the state the call
    started in, recorded once in the trace; a factory that throws rejects
    the call with its error, and otherwise the rest of the call runs on
    the implementation object and in the state that this one application
    returned. *)
Theorem factory_runs_every_call F (implFn : Ctx -> Ext St (Implementation St)) (ctx : Ctx)
    (m : string) (c : Callable) arg w :
  schema F !! m = Some c ->
  match input c arg with
  | Err e => call (makeRoute F implFn) ctx m arg w = (Err e, w)
  | Ok parsedInput =>
      let applied (s : St) := {| trace := trace w ++ [FactoryCall ctx]; host := s |} in
      call (makeRoute F implFn) ctx m arg w
        = match implFn ctx (host w) with
          | (Err e, s) => (Err e, applied s)
          | (Ok impl, s) =>
              bind (match get impl m with
                    | Absent =>
                        throw (PlainError ("Method implementation for " +:+ name F
                                             +:+ "." +:+ m +:+ " not found"))
                    | Own f => spy (MethodCall m parsedInput) (run (f parsedInput))
                    | Inherited k => call_inherited k "fn" None [parsedInput]
                    end)
                   (fun result =>
                      bind (settle (output c result))
                           (fun validated => ret (JSON.stringify validated)))
                   (applied s)
          end
      /\ factory_calls (trace (snd (call (makeRoute F implFn) ctx m arg w)))
           = factory_calls (trace w) ++ [ctx]
  end.
Proof.
  intros E. rewrite (makeRoute_declared F implFn ctx m c arg E).
  unfold bind at 1, settle at 1.
  destruct (input c arg) as [p | e]; [| reflexivity].
  split.
  - unfold bind at 1, spy at 1, bind at 1, emit at 1, run at 1. cbn [trace host].
    destruct (implFn ctx (host w)) as [[impl | e] s]; reflexivity.
  - unfold call_inherited, bind, settle, spy, bind, emit, run, throw, ret.
    cbn [trace host].
    destruct (implFn ctx (host w)) as [[impl | e] s1]; [| trace_done].
    destruct (get impl m) as [f | k |]; cbn [trace host].
    + destruct (f p s1) as [[raw | e] s2]; [destruct (output c raw) |]; trace_done.
    + destruct (String.eqb k "__proto__"); [trace_done |]. cbn [trace host].
      destruct (Object_prototype_call k None [p] s1) as [[raw | e] s2];
        [destruct (output c raw) |]; trace_done.
    + trace_done.
Qed.

(** X2.  The first part of C5: a payload that is not an envelope is rejected
    with the schema error, and nothing else happens. *)
Lemma router_rejects_bad_envelope (routes : gmap string (Route Ctx St)) (ctx : Ctx)
    (payload : Value) (e : Error) w :
  cableSchema payload = Err e -> makeRouter routes ctx payload w = (Err e, w).
Proof. intros E. unfold makeRouter, bind, settle. rewrite E. reflexivity. Qed.

(** X3.  The part of the second half of C5 that holds: a feature name found
    neither among the routes nor in [Object.prototype] is reported as not
    found, and no route is called. *)
Lemma router_unknown_feature (routes : gmap string (Route Ctx St)) (ctx : Ctx)
    (payload : Value) (p : CableInput.t) w :
  cableSchema payload = Ok p ->
  routes !! CableInput.feature p = None -> CableInput.feature p ∉ Object_prototype ->
  makeRouter routes ctx payload w
    = (Err (PlainError ("Feature " +:+ CableInput.feature p +:+ " not found")), w)
  /\ contains ("Feature " +:+ CableInput.feature p +:+ " not found") (CableInput.feature p).
Proof.
  intros E Hr Hp. split; [| apply contains_middle].
  unfold makeRouter, bind, settle. rewrite E. rewrite (get_absent _ _ Hr Hp). reflexivity.
Qed.

(** A feature name that is not registered but that [Object.prototype] has
    is not reported as not found: the router goes on to [route.call]. *)
Lemma router_inherited_feature (routes : gmap string (Route Ctx St)) (ctx : Ctx)
    (payload : Value) (p : CableInput.t) w :
  cableSchema payload = Ok p ->
  routes !! CableInput.feature p = None -> CableInput.feature p ∈ Object_prototype ->
  makeRouter routes ctx payload w
    = call_inherited (CableInput.feature p) "route.call" (Some ctx)
        [VString (CableInput.method p); CableInput.input p] w.
Proof.
  intros E Hr Hp.
  unfold makeRouter, bind, settle. rewrite E. rewrite (get_inherited _ _ Hr Hp). reflexivity.
Qed.

(** C7.  For a payload that is an envelope naming a registered feature,
    the router is the call of that route on the envelope's method and
    input, recorded as one route call: the same resolution or the same
    rejection, and the same world afterwards. *)
Theorem router_delegates (routes : gmap string (Route Ctx St)) (ctx : Ctx)
    (payload : Value) (p : CableInput.t) (r : Route Ctx St) w :
  cableSchema payload = Ok p ->
  routes !! CableInput.feature p = Some r ->
  makeRouter routes ctx payload w
    = call r ctx (CableInput.method p) (CableInput.input p)
        (record (RouteCall (CableInput.feature p) ctx (CableInput.method p)
                   (CableInput.input p)) w).
Proof.
  intros E Hr. unfold makeRouter, bind, settle. rewrite E. rewrite (get_own _ _ _ Hr).
  reflexivity.
Qed.

(** C8.  Without an endpoint ([undefined] or the empty string) both cable
    constructors throw [Backend endpoint is not set] instead of returning
    a cable.  A cable that was constructed, invoked while [auth.token] is
    [null], rejects with the authentication error and leaves the world as
    it was: [fetch] is not called. *)
Theorem cable_configuration_and_authentication (endpoint : option string) (auth : Auth St) :
  (endpoint = None \/ endpoint = Some "" ->
     @makeCable Ctx St _ endpoint auth = Err (PlainError "Backend endpoint is not set")
     /\ @httpCable Ctx St _ endpoint auth = Err (PlainError "Backend endpoint is not set"))
  /\
  (forall (cable : Cable Ctx St) (f m : string) (i : Value) w,
     makeCable endpoint auth = Ok cable \/ httpCable endpoint auth = Ok cable ->
     auth (host w) = None ->
     cable f m i w
       = (Err (PlainError "User not authenticated, cannot call cable without a token"), w)).
Proof.
  split.
  - intros [-> | ->]; split; reflexivity.
  - intros cable f m i w Hc Ha. unfold makeCable, httpCable in Hc.
    destruct (falsy endpoint); [destruct Hc as [Hc | Hc]; discriminate Hc |].
    destruct Hc as [Hc | Hc]; injection Hc as <-;
      unfold bind, read_token; rewrite Ha; reflexivity.
Qed.

(** [JSON.parse(JSON.stringify(v))] is [v] for a representable [v]. *)
Lemma parse_stringify (v : Value) :
  representable v = true ->
  (exists s, JSON.stringify v = VString s) /\ JSON.parse (JSON.stringify v) = Ok v.
Proof.
  intros Hv. unfold JSON.stringify, JSON.parse.
  rewrite (representable_serialize v Hv). split; [eauto |].
  simpl ToString. unfold chars. rewrite list_ascii_of_string_of_list_ascii.
  rewrite (parse_text_serialize v _ Hv (representable_serialize v Hv)). reflexivity.
Qed.

(** C3, amended.  Whenever [route.call] resolves, it resolves to
    [JSON.stringify] of the schema-validated return value of the
    implementation; when that value is representable, the resolved value
    is a string, and [JSON.parse] of it is the validated value again. *)
Theorem route_call_serialization F (implFn : Ctx -> Ext St (Implementation St)) (ctx : Ctx)
    (m : string) arg w (r : Value) w' :
  call (makeRoute F implFn) ctx m arg w = (Ok r, w') ->
  exists c parsedInput result validated,
    schema F !! m = Some c /\
    input c arg = Ok parsedInput /\
    implementation_returns implFn ctx m parsedInput (host w) result /\
    output c result = Ok validated /\
    r = JSON.stringify validated /\
    (representable validated = true ->
       (exists s, r = VString s) /\ JSON.parse r = Ok validated).
Proof.
  intros Hcall. destruct (schema F !! m) as [c |] eqn:E.
  - rewrite (makeRoute_declared F implFn ctx m c arg E) in Hcall.
    unfold call_inherited, bind, settle, spy, bind, emit, run, throw, ret in Hcall.
    destruct (input c arg) as [p | e] eqn:Ein; [| discriminate Hcall].
    cbn [trace host] in Hcall.
    destruct (implFn ctx (host w)) as [[impl | e] s1] eqn:Ei; [| discriminate Hcall].
    assert (Hret : exists result validated,
               match get impl m with
               | Own f => fst (f p s1) = Ok result
               | Inherited k =>
                   String.eqb k "__proto__" = false /\
                   fst (Object_prototype_call k None [p] s1) = Ok result
               | Absent => False
               end /\ output c result = Ok validated /\ r = JSON.stringify validated).
    { destruct (get impl m) as [f | k |]; cbn [trace host] in Hcall.
      - destruct (f p s1) as [[result | e] s2]; [| discriminate Hcall].
        destruct (output c result) as [validated | e] eqn:Eo; [| discriminate Hcall].
        injection Hcall as <- _. exists result, validated. auto.
      - destruct (String.eqb k "__proto__"); [discriminate Hcall |].
        cbn [trace host] in Hcall.
        destruct (Object_prototype_call k None [p] s1) as [[result | e] s2];
          [| discriminate Hcall].
        destruct (output c result) as [validated | e] eqn:Eo; [| discriminate Hcall].
        injection Hcall as <- _. exists result, validated. auto.
      - discriminate Hcall. }
    destruct Hret as (result & validated & Hm & Ho & ->).
    exists c, p, result, validated.
    split; [reflexivity |]. split; [exact Ein |].
    split; [exists impl, s1; split; [exact Ei | exact Hm] |].
    split; [exact Ho |]. split; [reflexivity |].
    apply parse_stringify.
  - exfalso. unfold makeRoute in Hcall. simpl in Hcall. unfold get in Hcall.
    rewrite E in Hcall. destruct (bool_decide (m ∈ Object_prototype)); discriminate Hcall.
Qed.

(** [cableSchema] is the object schema of its declaration. *)
Lemma cableSchema_shape (payload : Value) :
  S_schema [("feature", S_string); ("method", S_string); ("input", S_unknown)] payload
  = match cableSchema payload with
    | Ok p => Ok (envelope (CableInput.feature p) (CableInput.method p) (CableInput.input p))
    | Err e => Err e
    end.
Proof.
  destruct payload as [| | b | n | s | l | l]; try reflexivity.
  unfold S_schema, cableSchema, parse_fields, S_string, S_unknown, as_string.
  destruct (get_field (VObject l) "feature"); try reflexivity.
  destruct (get_field (VObject l) "method"); reflexivity.
Qed.

Lemma cableSchema_envelope (f m : string) (i : Value) :
  cableSchema (envelope f m i)
    = Ok {| CableInput.feature := f; CableInput.method := m; CableInput.input := i |}.
Proof. reflexivity. Qed.

(** The router on the payload built by the directly wired cable. *)
Lemma makeRouter_envelope (routes : gmap string (Route Ctx St)) (ctx : Ctx)
    (f m : string) (i : Value) :
  makeRouter routes ctx (envelope f m i) =
    match get routes f with
    | Absent => throw (PlainError ("Feature " +:+ f +:+ " not found"))
    | Own r => spy (RouteCall f ctx m i) (call r ctx m i)
    | Inherited k => call_inherited k "route.call" (Some ctx) [VString m; i]
    end.
Proof. reflexivity. Qed.

(** C1, amended.  Let [m] be a declared method, called through the proxy
    over a cable wired directly to a router that has the feature's route
    under the feature's name.  If the argument validates, the validated
    input validates again on the server, the implementation returns a
    value that validates against the output schema, and that validated
    value is representable and validates to itself on the client, then the
    proxy call resolves to the validated value. *)
Theorem remote_round_trip F (implFn : Ctx -> Ext St (Implementation St))
    (routes : gmap string (Route Ctx St)) (ctx : Ctx) (m : string) (c : Callable)
    arg (parsedInput serverInput : Value) (impl : Implementation St) (s1 s2 : St)
    (f : Value -> Ext St Value) (result validated : Value) w :
  schema F !! m = Some c ->
  routes !! name F = Some (makeRoute F implFn) ->
  input c arg = Ok parsedInput ->
  input c parsedInput = Ok serverInput ->
  implFn ctx (host w) = (Ok impl, s1) ->
  impl !! m = Some f ->
  f serverInput s1 = (Ok result, s2) ->
  output c result = Ok validated ->
  representable validated = true ->
  output c validated = Ok validated ->
  makeRemote F (routerCable (makeRouter routes) ctx) m arg w
    = (Ok validated,
       {| trace := trace w ++ [CableCall (name F) m parsedInput;
                               RouteCall (name F) ctx m parsedInput;
                               FactoryCall ctx;
                               MethodCall m serverInput];
          host := s2 |}).
Proof.
  intros E Hr Hi Hi' Hf Hm Hres Ho Hrep Ho'.
  rewrite (makeRemote_declared F _ m c arg E).
  unfold bind at 1, settle at 1. rewrite Hi.
  unfold routerCable. rewrite makeRouter_envelope, (get_own _ _ _ Hr).
  rewrite (makeRoute_declared F implFn ctx m c parsedInput E).
  unfold bind, settle, spy, bind, emit, run, ret. cbn [trace host].
  rewrite Hi'. cbn [trace host]. rewrite Hf. rewrite (get_own _ _ _ Hm). cbn [trace host].
  rewrite Hres, Ho. destruct (parse_stringify validated Hrep) as [_ ->].
  rewrite Ho'. rewrite <- !app_assoc. reflexivity.
Qed.

(** C9, amended.  [feature] returns the name and the schema it was given,
    unchanged and unchecked: the name of the feature is non-empty exactly
    when the name passed in is. *)
Theorem feature_keeps_name_and_schema (n : string) (s : gmap string Callable) :
  name (feature n s) = n /\ schema (feature n s) = s
  /\ (name (feature n s) <> "" <-> n <> "").
Proof. repeat split; intros Hn; exact Hn. Qed.

End CoreFacts.

(** * More properties of the route, the router and the cables *)

Section DispatchFacts.
Context {Ctx St : Type} `{Platform Ctx St}.

Implicit Types (F : AnyFeature) (w : World Ctx St) (arg : Value).

(** X4.  A declared method whose name the implementation object does not
    bind (and [Object.prototype] does not have) is rejected with the
    missing-implementation error, after validation and after one factory
    call; no method is called. *)
Theorem route_missing_implementation F (implFn : Ctx -> Ext St (Implementation St))
    (ctx : Ctx) (m : string) (c : Callable) arg (parsedInput : Value)
    (impl : Implementation St) (s1 : St) w :
  schema F !! m = Some c ->
  input c arg = Ok parsedInput ->
  implFn ctx (host w) = (Ok impl, s1) ->
  impl !! m = None -> m ∉ Object_prototype ->
  call (makeRoute F implFn) ctx m arg w
    = (Err (PlainError ("Method implementation for " +:+ name F +:+ "." +:+ m
                          +:+ " not found")),
       {| trace := trace w ++ [FactoryCall ctx]; host := s1 |}).
Proof.
  intros E Hi Hf Hm Hp. rewrite (makeRoute_declared F implFn ctx m c arg E).
  unfold bind, settle, spy, bind, emit, run, throw. rewrite Hi. cbn [trace host].
  rewrite Hf, (get_absent _ _ Hm Hp). reflexivity.
Qed.

(** X5.  A factory that throws makes the call reject with what it threw,
    after validation; no method is called. *)
Theorem route_factory_failure F (implFn : Ctx -> Ext St (Implementation St))
    (ctx : Ctx) (m : string) (c : Callable) arg (parsedInput : Value)
    (e : Error) (s1 : St) w :
  schema F !! m = Some c ->
  input c arg = Ok parsedInput ->
  implFn ctx (host w) = (Err e, s1) ->
  call (makeRoute F implFn) ctx m arg w
    = (Err e, {| trace := trace w ++ [FactoryCall ctx]; host := s1 |}).
Proof.
  intros E Hi Hf. rewrite (makeRoute_declared F implFn ctx m c arg E).
  unfold bind, settle, spy, bind, emit, run. rewrite Hi. cbn [trace host].
  rewrite Hf. reflexivity.
Qed.

(** X6.  A failure raised by the implementation method reaches the caller
    of the route unchanged: the same error, neither wrapped nor replaced,
    and the host state the method left. *)
Theorem route_implementation_failure F (implFn : Ctx -> Ext St (Implementation St))
    (ctx : Ctx) (m : string) (c : Callable) arg (parsedInput : Value)
    (impl : Implementation St) (f : Value -> Ext St Value) (e : Error) (s1 s2 : St) w :
  schema F !! m = Some c ->
  input c arg = Ok parsedInput ->
  implFn ctx (host w) = (Ok impl, s1) ->
  impl !! m = Some f ->
  f parsedInput s1 = (Err e, s2) ->
  call (makeRoute F implFn) ctx m arg w
    = (Err e, {| trace := trace w ++ [FactoryCall ctx; MethodCall m parsedInput];
                 host := s2 |}).
Proof.
  intros E Hi Hf Hm He. rewrite (makeRoute_declared F implFn ctx m c arg E).
  unfold bind, settle, spy, bind, emit, run. rewrite Hi. cbn [trace host].
  rewrite Hf, (get_own _ _ _ Hm). cbn [trace host]. rewrite He.
  rewrite <- app_assoc. reflexivity.
Qed.

(** X7.  Output validation is enforced by the route: when the
    implementation returns a value that the output schema refuses, the call
    rejects with the schema's error although the method ran. *)
Theorem route_output_validation F (implFn : Ctx -> Ext St (Implementation St))
    (ctx : Ctx) (m : string) (c : Callable) arg (parsedInput result : Value)
    (impl : Implementation St) (f : Value -> Ext St Value) (e : Error) (s1 s2 : St) w :
  schema F !! m = Some c ->
  input c arg = Ok parsedInput ->
  implFn ctx (host w) = (Ok impl, s1) ->
  impl !! m = Some f ->
  f parsedInput s1 = (Ok result, s2) ->
  output c result = Err e ->
  call (makeRoute F implFn) ctx m arg w
    = (Err e, {| trace := trace w ++ [FactoryCall ctx; MethodCall m parsedInput];
                 host := s2 |}).
Proof.
  intros E Hi Hf Hm Hr Ho. rewrite (makeRoute_declared F implFn ctx m c arg E).
  unfold bind, settle, spy, bind, emit, run. rewrite Hi. cbn [trace host].
  rewrite Hf, (get_own _ _ _ Hm). cbn [trace host]. rewrite Hr, Ho.
  rewrite <- app_assoc. reflexivity.
Qed.

(** X8.  A successful call: the method receives the validated input, not
    the raw argument; it is called once, after one factory call; and the
    route resolves to [JSON.stringify] of the validated result. *)
Theorem route_call_success F (implFn : Ctx -> Ext St (Implementation St))
    (ctx : Ctx) (m : string) (c : Callable) arg (parsedInput result validated : Value)
    (impl : Implementation St) (f : Value -> Ext St Value) (s1 s2 : St) w :
  schema F !! m = Some c ->
  input c arg = Ok parsedInput ->
  implFn ctx (host w) = (Ok impl, s1) ->
  impl !! m = Some f ->
  f parsedInput s1 = (Ok result, s2) ->
  output c result = Ok validated ->
  call (makeRoute F implFn) ctx m arg w
    = (Ok (JSON.stringify validated),
       {| trace := trace w ++ [FactoryCall ctx; MethodCall m parsedInput]; host := s2 |}).
Proof.
  intros E Hi Hf Hm Hr Ho. rewrite (makeRoute_declared F implFn ctx m c arg E).
  unfold bind, settle, spy, bind, emit, run, ret. rewrite Hi. cbn [trace host].
  rewrite Hf, (get_own _ _ _ Hm). cbn [trace host]. rewrite Hr, Ho.
  rewrite <- app_assoc. reflexivity.
Qed.

(** X9.  A dispatch looks at one entry of the route table only: two
    routers whose tables agree at the envelope's feature name behave alike
    on that payload, whatever else is registered. *)
Theorem router_isolation (routes1 routes2 : gmap string (Route Ctx St)) (ctx : Ctx)
    (payload : Value) w :
  (forall p, cableSchema payload = Ok p ->
     routes1 !! CableInput.feature p = routes2 !! CableInput.feature p) ->
  makeRouter routes1 ctx payload w = makeRouter routes2 ctx payload w.
Proof.
  intros Hagree. unfold makeRouter, bind, settle.
  destruct (cableSchema payload) as [p | e]; [| reflexivity].
  unfold get. rewrite (Hagree p eq_refl). reflexivity.
Qed.

(** *** The cables *)

Lemma append_assoc (a b c : string) : (a +:+ b) +:+ c = a +:+ (b +:+ c).
Proof. induction a as [| x a IH]; [reflexivity | exact (f_equal (String x) IH)]. Qed.

Lemma append_empty_r (a : string) : a +:+ "" = a.
Proof. induction a as [| x a IH]; [reflexivity | exact (f_equal (String x) IH)]. Qed.

Lemma falsy_nonempty (token : string) : token <> "" -> falsy (Some token) = false.
Proof. intros Ht. unfold falsy. apply String.eqb_neq. exact Ht. Qed.

(** The two [headers.set] of a cable: the first always succeeds, the second
    succeeds exactly when the bearer value is a header value. *)
Lemma Headers_set_content_type :
  Headers_set "Content-Type" "application/json" []
  = Ok [("Content-Type", "application/json")].
Proof. reflexivity. Qed.

Lemma Headers_set_authorization (token : string) :
  Headers_set "Authorization" ("Bearer " +:+ token) [("Content-Type", "application/json")]
  = if is_header_value (bearer token) then
      Ok [("Content-Type", "application/json"); ("Authorization", bearer token)]
    else Err (TypeError (invalid_header "Authorization" ("Bearer " +:+ token))).
Proof.
  unfold Headers_set. fold (bearer token).
  destruct (is_header_value (bearer token)); reflexivity.
Qed.

(** What an invocation of either cable with a token amounts to. *)
Lemma cable_with_token (url : string) (auth : Auth St) (cable : Cable Ctx St)
    (f m token : string) (i : Value) w :
  makeCable (Some url) auth = Ok cable \/ httpCable (Some url) auth = Ok cable ->
  auth (host w) = Some token -> token <> "" ->
  cable f m i w =
    bind (settle (Headers_set "Authorization" ("Bearer " +:+ token)
                    [("Content-Type", "application/json")]))
         (fun headers =>
            bind (spy (FetchCall url
                         {| RequestInit.headers := headers;
                            RequestInit.method := "POST";
                            RequestInit.body := JSON.stringify (envelope f m i) |})
                      (run (fetch url
                              {| RequestInit.headers := headers;
                                 RequestInit.method := "POST";
                                 RequestInit.body := JSON.stringify (envelope f m i) |})))
                 (fun response =>
                    if negb (ok response) then
                      throw (PlainError ("Failed to call " +:+ f +:+ "." +:+ m
                                           +:+ ": " +:+ statusText response))
                    else run (json response))) w.
Proof.
  intros Hc Ha Ht. unfold makeCable, httpCable in Hc.
  destruct (falsy (Some url)); [destruct Hc as [Hc | Hc]; discriminate Hc |].
  destruct Hc as [Hc | Hc]; injection Hc as <-;
    unfold bind at 1, read_token; rewrite Ha, (falsy_nonempty token Ht); reflexivity.
Qed.

(** What an authenticated invocation of either cable amounts to. *)
Lemma cable_authenticated (url : string) (auth : Auth St) (cable : Cable Ctx St)
    (f m token : string) (i : Value) w :
  makeCable (Some url) auth = Ok cable \/ httpCable (Some url) auth = Ok cable ->
  auth (host w) = Some token -> token <> "" ->
  is_header_value (bearer token) = true ->
  cable f m i w =
    bind (spy (FetchCall url (cable_request token f m i))
              (run (fetch url (cable_request token f m i))))
         (fun response =>
            if negb (ok response) then
              throw (PlainError ("Failed to call " +:+ f +:+ "." +:+ m
                                   +:+ ": " +:+ statusText response))
            else run (json response)) w.
Proof.
  intros Hc Ha Ht Hv. rewrite (cable_with_token url auth cable f m token i w Hc Ha Ht).
  rewrite Headers_set_authorization, Hv. reflexivity.
Qed.

Lemma envelope_round_trip (f m : string) (i : Value) :
  representable i = true \/ i = VUndefined ->
  exists payload,
    JSON.parse (JSON.stringify (envelope f m i)) = Ok payload
    /\ cableSchema payload
       = Ok {| CableInput.feature := f; CableInput.method := m; CableInput.input := i |}.
Proof.
  intros [Hi | ->].
  - exists (envelope f m i). split; [| reflexivity].
    apply parse_stringify. unfold envelope. cbn [representable forallb snd].
    rewrite Hi. reflexivity.
  - exists (VObject [("feature", VString f); ("method", VString m)]). split; [| reflexivity].
    change (JSON.stringify (envelope f m VUndefined))
      with (JSON.stringify (VObject [("feature", VString f); ("method", VString m)])).
    apply parse_stringify. reflexivity.
Qed.

(** X10.  An invocation of a cable with a token that can be sent as a
    header performs exactly one [fetch] and settles as that [fetch] and the
    response settle: the request is a [POST] to the endpoint with a JSON
    content type and the bearer value of the token read from the auth
    object at that moment; a rejected [fetch] rejects the call with the same
    error, a response that is not [ok] rejects it with the failure message,
    and an [ok] response settles it as [response.json()] settles.  The body
    of the request is JSON text, and when the input is representable or
    absent, the body parsed back is an envelope that the router's schema
    accepts with the same feature, method and input. *)
Theorem cable_sends_one_request (url : string) (auth : Auth St) (cable : Cable Ctx St)
    (f m token : string) (i : Value) w :
  makeCable (Some url) auth = Ok cable \/ httpCable (Some url) auth = Ok cable ->
  auth (host w) = Some token -> token <> "" ->
  is_header_value (bearer token) = true ->
  let init :=
    {| RequestInit.headers :=
         [("Content-Type", "application/json"); ("Authorization", bearer token)];
       RequestInit.method := "POST";
       RequestInit.body := JSON.stringify (envelope f m i) |} in
  let sent (s : St) := {| trace := trace w ++ [FetchCall url init]; host := s |} in
  cable f m i w
    = match fetch url init (host w) with
      | (Err e, s) => (Err e, sent s)
      | (Ok response, s) =>
          if ok response then (fst (json response s), sent (snd (json response s)))
          else (Err (PlainError ("Failed to call " +:+ f +:+ "." +:+ m +:+ ": "
                                   +:+ statusText response)),
                sent s)
      end
  /\ (exists body, JSON.stringify (envelope f m i) = VString body)
  /\ (representable i = true \/ i = VUndefined ->
      exists payload,
        JSON.parse (JSON.stringify (envelope f m i)) = Ok payload
        /\ cableSchema payload
           = Ok {| CableInput.feature := f; CableInput.method := m; CableInput.input := i |}).
Proof.
  intros Hc Ha Ht Hv init sent. split; [| split].
  - rewrite (cable_authenticated url auth cable f m token i w Hc Ha Ht Hv).
    unfold bind, spy, bind, emit, run, throw. cbn [trace host].
    change (cable_request token f m i) with init.
    destruct (fetch url init (host w)) as [[response | e] s]; [| reflexivity].
    destruct (ok response); cbn [negb]; [| reflexivity].
    cbn [trace host]. destruct (json response s). reflexivity.
  - unfold JSON.stringify. cbn [serialize envelope]. eauto.
  - apply envelope_round_trip.
Qed.

(** X11.  With a token that can be sent as a header, a response that is not
    [ok] makes the cable reject with an error that names the feature, the
    method and the status text; the body of the response is not read. *)
Theorem cable_failed_response (url : string) (auth : Auth St) (cable : Cable Ctx St)
    (f m token : string) (i : Value) (response : Response St) (s : St) w :
  makeCable (Some url) auth = Ok cable \/ httpCable (Some url) auth = Ok cable ->
  auth (host w) = Some token -> token <> "" ->
  is_header_value (bearer token) = true ->
  fetch url (cable_request token f m i) (host w) = (Ok response, s) ->
  ok response = false ->
  cable f m i w
    = (Err (PlainError ("Failed to call " +:+ f +:+ "." +:+ m +:+ ": "
                          +:+ statusText response)),
       {| trace := trace w ++ [FetchCall url (cable_request token f m i)]; host := s |})
  /\ contains ("Failed to call " +:+ f +:+ "." +:+ m +:+ ": " +:+ statusText response)
       (f +:+ "." +:+ m)
  /\ contains ("Failed to call " +:+ f +:+ "." +:+ m +:+ ": " +:+ statusText response)
       (statusText response).
Proof.
  intros Hc Ha Ht Hv Hf Hok. split; [| split].
  - rewrite (cable_authenticated url auth cable f m token i w Hc Ha Ht Hv).
    unfold bind, spy, bind, emit, run, throw. cbn [trace host]. rewrite Hf, Hok. reflexivity.
  - exists "Failed to call ", (": " +:+ statusText response).
    rewrite !append_assoc. reflexivity.
  - exists ("Failed to call " +:+ f +:+ "." +:+ m +:+ ": "), "".
    rewrite append_empty_r, !append_assoc. reflexivity.
Qed.

(** X12.  With a token that can be sent as a header, a response that is
    [ok] makes the cable resolve to what [response.json()] resolves to, or
    reject with what it rejects with; the result is not validated by the
    cable. *)
Theorem cable_successful_response (url : string) (auth : Auth St) (cable : Cable Ctx St)
    (f m token : string) (i : Value) (response : Response St) (s : St) w :
  makeCable (Some url) auth = Ok cable \/ httpCable (Some url) auth = Ok cable ->
  auth (host w) = Some token -> token <> "" ->
  is_header_value (bearer token) = true ->
  fetch url (cable_request token f m i) (host w) = (Ok response, s) ->
  ok response = true ->
  cable f m i w
    = (fst (json response s),
       {| trace := trace w ++ [FetchCall url (cable_request token f m i)];
          host := snd (json response s) |}).
Proof.
  intros Hc Ha Ht Hv Hf Hok.
  rewrite (cable_authenticated url auth cable f m token i w Hc Ha Ht Hv).
  unfold bind, spy, bind, emit, run, throw. cbn [trace host]. rewrite Hf, Hok.
  cbn [negb trace host]. destruct (json response s). reflexivity.
Qed.

(** X13.  With a token that can be sent as a header, a [fetch] that rejects
    (no network, bad endpoint) makes the cable reject with the same error. *)
Theorem cable_fetch_failure (url : string) (auth : Auth St) (cable : Cable Ctx St)
    (f m token : string) (i : Value) (e : Error) (s : St) w :
  makeCable (Some url) auth = Ok cable \/ httpCable (Some url) auth = Ok cable ->
  auth (host w) = Some token -> token <> "" ->
  is_header_value (bearer token) = true ->
  fetch url (cable_request token f m i) (host w) = (Err e, s) ->
  cable f m i w
    = (Err e, {| trace := trace w ++ [FetchCall url (cable_request token f m i)];
                 host := s |}).
Proof.
  intros Hc Ha Ht Hv Hf.
  rewrite (cable_authenticated url auth cable f m token i w Hc Ha Ht Hv).
  unfold bind, spy, bind, emit, run. cbn [trace host]. rewrite Hf. reflexivity.
Qed.

(** X14.  An empty token counts as no token: the cable rejects with the
    authentication error and [fetch] is not called. *)
Theorem cable_empty_token (endpoint : option string) (auth : Auth St)
    (cable : Cable Ctx St) (f m : string) (i : Value) w :
  makeCable endpoint auth = Ok cable \/ httpCable endpoint auth = Ok cable ->
  auth (host w) = Some "" ->
  cable f m i w
    = (Err (PlainError "User not authenticated, cannot call cable without a token"), w).
Proof.
  intros Hc Ha. unfold makeCable, httpCable in Hc.
  destruct (falsy endpoint); [destruct Hc as [Hc | Hc]; discriminate Hc |].
  destruct Hc as [Hc | Hc]; injection Hc as <-;
    unfold bind, read_token; rewrite Ha; reflexivity.
Qed.

(** X19.  A token that cannot be sent as a header, because its bearer value
    still has a NUL, a line feed or a carriage return once the trailing
    white space is stripped, makes the cable reject with the [TypeError] of
    [headers.set]; [fetch] is not called. *)
Theorem cable_invalid_token (url : string) (auth : Auth St) (cable : Cable Ctx St)
    (f m token : string) (i : Value) w :
  makeCable (Some url) auth = Ok cable \/ httpCable (Some url) auth = Ok cable ->
  auth (host w) = Some token -> token <> "" ->
  is_header_value (bearer token) = false ->
  cable f m i w
    = (Err (TypeError (invalid_header "Authorization" ("Bearer " +:+ token))), w).
Proof.
  intros Hc Ha Ht Hv. rewrite (cable_with_token url auth cable f m token i w Hc Ha Ht).
  rewrite Headers_set_authorization, Hv. reflexivity.
Qed.

(** X15.  The cable of [src/src/http.ts] is the cable of [src/index.ts]:
    the two constructors agree on every endpoint and auth object. *)
Theorem httpCable_is_makeCable (endpoint : option string) (auth : Auth St) :
  @httpCable Ctx St _ endpoint auth = makeCable endpoint auth.
Proof. reflexivity. Qed.

(** *** The proxy over the other parts *)

(** X16.  A proxy over an HTTP cable validates before it authenticates: a
    bad argument is rejected with the validation error whether or not a
    token is set; a good one, without a token, is rejected with the
    authentication error after one cable call and no [fetch]. *)
Theorem remote_over_cable_unauthenticated F (endpoint : option string) (auth : Auth St)
    (cable : Cable Ctx St) (m : string) (c : Callable) arg w :
  makeCable endpoint auth = Ok cable \/ httpCable endpoint auth = Ok cable ->
  schema F !! m = Some c ->
  match input c arg with
  | Err e => makeRemote F cable m arg w = (Err e, w)
  | Ok v =>
      auth (host w) = None ->
      makeRemote F cable m arg w
        = (Err (PlainError "User not authenticated, cannot call cable without a token"),
           {| trace := trace w ++ [CableCall (name F) m v]; host := host w |})
  end.
Proof.
  intros Hc E. rewrite (makeRemote_declared F cable m c arg E).
  unfold bind at 1, settle at 1. destruct (input c arg) as [v | e]; [| reflexivity].
  intros Ha. unfold makeCable, httpCable in Hc.
  destruct (falsy endpoint); [destruct Hc as [Hc | Hc]; discriminate Hc |].
  destruct Hc as [Hc | Hc]; injection Hc as <-;
    unfold bind, spy, bind, emit, read_token; cbn [trace host]; rewrite Ha; reflexivity.
Qed.

(** X17.  A proxy over an HTTP cable with a token that can be sent as a
    header: one cable call, one [fetch] carrying the validated input, and
    the reply read from the response is validated against the output schema
    before the caller sees it, so a reply of the wrong shape is rejected on
    the client. *)
Theorem remote_over_cable_reply F (url : string) (auth : Auth St) (cable : Cable Ctx St)
    (m token : string) (c : Callable) arg (v reply : Value) (response : Response St)
    (s s' : St) w :
  makeCable (Some url) auth = Ok cable \/ httpCable (Some url) auth = Ok cable ->
  schema F !! m = Some c ->
  input c arg = Ok v ->
  auth (host w) = Some token -> token <> "" ->
  is_header_value (bearer token) = true ->
  fetch url (cable_request token (name F) m v) (host w) = (Ok response, s) ->
  ok response = true ->
  json response s = (Ok reply, s') ->
  makeRemote F cable m arg w
    = (output c reply,
       {| trace := trace w ++ [CableCall (name F) m v;
                               FetchCall url (cable_request token (name F) m v)];
          host := s' |}).
Proof.
  intros Hc E Hi Ha Ht Hv Hf Hok Hj. rewrite (makeRemote_declared F cable m c arg E).
  unfold bind at 1, settle at 1. rewrite Hi.
  unfold bind at 1, spy at 1, bind at 1, emit at 1. cbn beta iota.
  rewrite (cable_authenticated url auth cable (name F) m token v
             {| trace := trace w ++ [CableCall (name F) m v]; host := host w |} Hc Ha Ht Hv).
  unfold bind, spy, bind, emit, run, settle. cbn [trace host]. rewrite Hf, Hok.
  cbn [negb trace host]. rewrite Hj. rewrite <- app_assoc. reflexivity.
Qed.

(** X18.  Through the proxy, the directly wired cable, the router and the
    route, a failure raised by the implementation method reaches the caller
    of the proxy unchanged. *)
Theorem remote_propagates_implementation_failure F
    (implFn : Ctx -> Ext St (Implementation St)) (routes : gmap string (Route Ctx St))
    (ctx : Ctx) (m : string) (c : Callable) arg (parsedInput serverInput : Value)
    (impl : Implementation St) (s1 s2 : St) (f : Value -> Ext St Value) (e : Error) w :
  schema F !! m = Some c ->
  routes !! name F = Some (makeRoute F implFn) ->
  input c arg = Ok parsedInput ->
  input c parsedInput = Ok serverInput ->
  implFn ctx (host w) = (Ok impl, s1) ->
  impl !! m = Some f ->
  f serverInput s1 = (Err e, s2) ->
  makeRemote F (routerCable (makeRouter routes) ctx) m arg w
    = (Err e,
       {| trace := trace w ++ [CableCall (name F) m parsedInput;
                               RouteCall (name F) ctx m parsedInput;
                               FactoryCall ctx;
                               MethodCall m serverInput];
          host := s2 |}).
Proof.
  intros E Hr Hi Hi' Hf Hm He.
  rewrite (makeRemote_declared F _ m c arg E).
  unfold bind at 1, settle at 1. rewrite Hi.
  unfold routerCable. rewrite makeRouter_envelope, (get_own _ _ _ Hr).
  rewrite (makeRoute_declared F implFn ctx m c parsedInput E).
  unfold bind, settle, spy, bind, emit, run, ret. cbn [trace host].
  rewrite Hi'. cbn [trace host]. rewrite Hf. rewrite (get_own _ _ _ Hm). cbn [trace host].
  rewrite He. rewrite <- !app_assoc. reflexivity.
Qed.


End DispatchFacts.

(** * The core on the sample features *)

#[local] Existing Instance sample_host.

(** C2 on the proxy test: a bad [id] is rejected without a cable call, a
    good one makes exactly one. *)
Lemma remote_fail_fast_witness :
  makeRemote userFeature (fun f m i => run (mockCable f m i)) "getProfile"
    (VObject [("id", VString "not-a-number")]) quiet
  = (Err (SchemaError "Expected number"), quiet)
  /\
  makeRemote userFeature (fun f m i => run (mockCable f m i)) "getProfile"
    (VObject [("id", VNumber (Int 42))]) quiet
  = (Ok (VObject [("id", VNumber (Int 42)); ("name", VString "John Doe")]),
     {| trace := [CableCall "user" "getProfile" (VObject [("id", VNumber (Int 42))])];
        host := tt |}).
Proof.
  split.
  - apply (remote_fail_fast (Ctx := unit) userFeature mockCable "getProfile"
             (to (transform (S_schema [("id", S_number)]))
                 (S_schema [("id", S_number); ("name", S_string)]))
             (VObject [("id", VString "not-a-number")]) quiet).
    vm_compute. reflexivity.
  - apply (remote_fail_fast (Ctx := unit) userFeature mockCable "getProfile"
             (to (transform (S_schema [("id", S_number)]))
                 (S_schema [("id", S_number); ("name", S_string)]))
             (VObject [("id", VNumber (Int 42))]) quiet).
    vm_compute. reflexivity.
Defined.

(** C10, amended, on a name found nowhere. *)
Lemma remote_undeclared_method_witness :
  exists e,
    makeRemote userFeature (fun f m i => run (mockCable f m i)) "nope"
      (VObject [("id", VNumber (Int 42))]) quiet
    = (Err e, quiet)
    /\ ("nope" ∉ Object_prototype ->
        destructure (get (schema userFeature) "nope") = Err e)
    /\ ("nope" ∈ Object_prototype ->
        destructure (get (schema userFeature) "nope") = Ok (None, None)
        /\ @parseOrThrow unit unit _ (VObject [("id", VNumber (Int 42))]) None = Err e).
Proof.
  apply (remote_undeclared_method (Ctx := unit) userFeature
           (fun f m i => run (mockCable f m i)) "nope"
           (VObject [("id", VNumber (Int 42))]) quiet).
  vm_compute. reflexivity.
Defined.

(** C10, as stated, fails: for [toString] the destructuring succeeds, and
    the rejection is what the schema library raises in the parse that
    follows, on every host. *)
Lemma remote_toString_passes_destructuring :
  schema userFeature !! "toString" = None
  /\ destructure (get (schema userFeature) "toString") = Ok (None, None)
  /\ forall (host : Platform unit unit) (arg : Value),
       @makeRemote unit unit host userFeature (fun f m i => run (mockCable f m i))
         "toString" arg quiet
       = (Err (@parse_without_schema unit unit host arg), quiet).
Proof.
  split; [vm_compute; reflexivity |].
  split; [vm_compute; reflexivity |]. intros host arg. reflexivity.
Qed.

(** C6 on the crew route behind the counting factory: a bad [id] leaves
    the counter alone, a good one moves it by one. *)
Lemma factory_runs_every_call_witness :
  call countedRoute enterprise "getOfficer" (VObject [("id", VString "one")])
    {| trace := []; host := 0 |}
  = (Err (SchemaError "Expected number"), {| trace := []; host := 0 |})
  /\
  (call countedRoute enterprise "getOfficer" id1 {| trace := []; host := 0 |}
   = (Ok (JSON.stringify picard),
      {| trace := [FactoryCall enterprise; MethodCall "getOfficer" id1]; host := 1 |})
   /\ factory_calls
        (trace (snd (call countedRoute enterprise "getOfficer" id1
                       {| trace := []; host := 0 |})))
      = factory_calls [] ++ [enterprise]).
Proof.
  split.
  - apply (factory_runs_every_call (H := sample_host Officers nat) crewFeature countedImpl
             enterprise "getOfficer"
             (to (transform (S_schema [("id", S_number)])) officerSchema)
             (VObject [("id", VString "one")]) {| trace := []; host := 0 |}).
    reflexivity.
  - apply (factory_runs_every_call (H := sample_host Officers nat) crewFeature countedImpl
             enterprise "getOfficer"
             (to (transform (S_schema [("id", S_number)])) officerSchema)
             id1 {| trace := []; host := 0 |}).
    reflexivity.
Defined.

(** Two calls in a row apply the factory twice: nothing is kept from the
    first call. *)
Example factory_runs_again :
  factory_calls
    (trace (snd (bind (call crewRoute enterprise "getOfficer" id1)
                      (fun _ => call crewRoute enterprise "getOfficer"
                                  id1) fresh)))
  = [enterprise; enterprise].
Proof. vm_compute. reflexivity. Qed.

(** The counting factory after two calls in a row. *)
Example factory_counted_twice :
  host (snd (bind (call countedRoute enterprise "getOfficer" id1)
                  (fun _ => call countedRoute enterprise "getOfficer" id1)
                  {| trace := []; host := 0 |}))
  = 2.
Proof. vm_compute. reflexivity. Qed.

(** C7 on the crew router. *)
Lemma router_delegates_witness :
  crewRouter enterprise (envelope "crew" "getOfficer" id1) fresh
  = call crewRoute enterprise "getOfficer" id1
      (record (RouteCall "crew" enterprise "getOfficer" id1) fresh).
Proof.
  apply (router_delegates {[ "crew" := crewRoute ]} enterprise
           (envelope "crew" "getOfficer" id1)
           {| CableInput.feature := "crew"; CableInput.method := "getOfficer";
              CableInput.input := VObject [("id", VNumber (Int 1))] |}
           crewRoute fresh).
  - reflexivity.
  - reflexivity.
Defined.

(** C8 without an endpoint, and on a constructed cable while signed out. *)
Lemma cable_configuration_and_authentication_witness :
  (@makeCable unit (option string) _ None (fun token => token)
     = Err (PlainError "Backend endpoint is not set")
   /\ @httpCable unit (option string) _ None (fun token => token)
     = Err (PlainError "Backend endpoint is not set"))
  /\
  match sampleCable with
  | Ok cable =>
      cable "user" "getProfile" (VObject [("id", VNumber (Int 42))]) signed_out
      = (Err (PlainError "User not authenticated, cannot call cable without a token"),
         signed_out)
  | Err _ => False
  end.
Proof.
  split.
  - apply (proj1 (cable_configuration_and_authentication (Ctx := unit) None (fun token => token))).
    left. reflexivity.
  - destruct sampleCable as [cable | e] eqn:Hc.
    + apply (proj2 (cable_configuration_and_authentication (Ctx := unit)
                      (Some "https://api.example.com/rpc") (fun token => token))).
      * left. exact Hc.
      * reflexivity.
    + discriminate Hc.
Defined.

(** C3, amended, on the crew route. *)
Lemma route_call_serialization_witness :
  exists c parsedInput result validated,
    schema crewFeature !! "getOfficer" = Some c /\
    input c id1 = Ok parsedInput /\
    implementation_returns crewImpl enterprise "getOfficer" parsedInput (host fresh) result /\
    output c result = Ok validated /\
    JSON.stringify picard = JSON.stringify validated /\
    (representable validated = true ->
       (exists s, JSON.stringify picard = VString s) /\
       JSON.parse (JSON.stringify picard) = Ok validated).
Proof.
  apply (route_call_serialization crewFeature crewImpl enterprise "getOfficer" id1 fresh
           (JSON.stringify picard)
           {| trace := [FactoryCall enterprise; MethodCall "getOfficer" id1]; host := tt |}).
  vm_compute. reflexivity.
Defined.

(** The end-to-end scenario: the officer comes back as JSON text that parses
    to the officer. *)
Example crew_getOfficer :
  fst (call crewRoute enterprise "getOfficer" id1 fresh) = Ok (JSON.stringify picard)
  /\ JSON.parse (JSON.stringify picard) = Ok picard.
Proof. split; vm_compute; reflexivity. Qed.

(** C1, amended, on the crew feature: the officer arrives at the caller. *)
Lemma remote_round_trip_witness :
  makeRemote crewFeature (routerCable crewRouter enterprise) "getOfficer" id1 fresh
  = (Ok picard,
     {| trace := trace fresh ++ [CableCall "crew" "getOfficer" id1;
                                 RouteCall "crew" enterprise "getOfficer" id1;
                                 FactoryCall enterprise;
                                 MethodCall "getOfficer" id1];
        host := tt |}).
Proof.
  apply (remote_round_trip crewFeature crewImpl {[ "crew" := crewRoute ]} enterprise
           "getOfficer"
           (to (transform (S_schema [("id", S_number)])) officerSchema)
           id1 id1 id1
           {[ "getOfficer" := fun input s' => (Ok (Map_get enterprise (get_field input "id")), s') ]}
           tt tt
           (fun input s' => (Ok (Map_get enterprise (get_field input "id")), s'))
           picard picard fresh).
  all: reflexivity.
Defined.

(** C9, as stated, fails: the constructor accepts the empty name. *)
Lemma feature_name_can_be_empty :
  ~ (forall (n : string) (s : gmap string Callable), name (feature n s) <> "").
Proof. intros Hname. exact (Hname "" ∅ eq_refl). Qed.

(** C3, as stated, fails: a method whose validated return value is
    [undefined] makes [route.call] resolve to [undefined], which is not a
    text, and which [JSON.parse] rejects. *)
Lemma route_call_resolves_to_undefined :
  call logRoute tt "write" VNull quiet
    = (Ok VUndefined, {| trace := [FactoryCall tt; MethodCall "write" VNull]; host := tt |})
  /\ implementation_returns logImpl tt "write" VNull tt VUndefined
  /\ S_unknown VUndefined = Ok VUndefined
  /\ (forall s, VUndefined <> VString s)
  /\ JSON.parse VUndefined = Err (SyntaxError "Unexpected token in JSON").
Proof.
  split; [vm_compute; reflexivity |].
  split.
  { eexists _, tt. split; [reflexivity |]. vm_compute. reflexivity. }
  split; [reflexivity |]. split; [discriminate |]. vm_compute. reflexivity.
Qed.

(** C1, as stated, fails: the argument validates, the implementation
    returns [undefined], which validates against the output schema, and the
    proxy call over the directly wired cable rejects. *)
Lemma remote_rejects_undefined_output :
  schema logFeature !! "write" = Some (to (transform S_unknown) S_unknown)
  /\ S_unknown VNull = Ok VNull
  /\ implementation_returns logImpl tt "write" VNull tt VUndefined
  /\ S_unknown VUndefined = Ok VUndefined
  /\ makeRemote logFeature (routerCable logRouter tt) "write" VNull quiet
     = (Err (SyntaxError "Unexpected token in JSON"),
        {| trace := [CableCall "log" "write" VNull; RouteCall "log" tt "write" VNull;
                     FactoryCall tt; MethodCall "write" VNull];
           host := tt |}).
Proof.
  split; [reflexivity |]. split; [reflexivity |].
  split.
  { eexists _, tt. split; [reflexivity |]. vm_compute. reflexivity. }
  split; [reflexivity |]. vm_compute. reflexivity.
Qed.

(** The two re-validations that C1 leaves out can fail as well: a coerced
    input does not validate again on the server, and a coerced output does
    not validate again on the client. *)
Example coerced_input_fails_on_the_server :
  lengthSchema (VString "abc") = Ok (VNumber (Int 3))
  /\ fst (makeRemote textFeature (routerCable textRouter tt) "measure" (VString "abc") quiet)
     = Err (SchemaError "Expected string").
Proof. split; vm_compute; reflexivity. Qed.

Example coerced_output_fails_on_the_client :
  lengthSchema (VString "abc") = Ok (VNumber (Int 3))
  /\ representable (VNumber (Int 3)) = true
  /\ fst (makeRemote textFeature (routerCable textRouter tt) "describe" VNull quiet)
     = Err (SchemaError "Expected string").
Proof. repeat split; vm_compute; reflexivity. Qed.

(** C4 on a method name that the schema does not declare: [toString] is not
    reported as not found. *)
Lemma route_call_toString :
  schema crewFeature !! "toString" = None
  /\ call crewRoute enterprise "toString" (VObject []) fresh
     = (Err (TypeError "Cannot read properties of undefined"), fresh).
Proof. split; vm_compute; reflexivity. Qed.

(** C5 on feature names that are not registered: [__proto__] makes the
    router fail on [route.call], and [toString] makes it resolve. *)
Lemma router_dispatch_inherited_feature :
  ({[ "crew" := crewRoute ]} : gmap string (Route Officers unit)) !! "__proto__" = None
  /\ crewRouter enterprise (envelope "__proto__" "x" (VObject [])) fresh
     = (Err (TypeError "route.call is not a function"), fresh)
  /\ ({[ "crew" := crewRoute ]} : gmap string (Route Officers unit)) !! "toString" = None
  /\ crewRouter enterprise (envelope "toString" "x" (VObject [])) fresh
     = (Ok (VString "[object Object]"), fresh).
Proof. repeat split; vm_compute; reflexivity. Qed.

(** The test suites' unknown names are reported as the claims say. *)
Example route_call_nonExistent :
  call crewRoute enterprise "nonExistent" (VObject []) fresh
  = (Err (PlainError "Method nonExistent not found"), fresh).
Proof. vm_compute. reflexivity. Qed.

Example router_dispatch_nonExistent :
  crewRouter enterprise (envelope "nonExistent" "someMethod" (VObject [])) fresh
  = (Err (PlainError "Feature nonExistent not found"), fresh).
Proof. vm_compute. reflexivity. Qed.

Example router_rejects_invalid_payload :
  crewRouter enterprise (VObject [("invalid", VString "payload")]) fresh
  = (Err (SchemaError "Expected string"), fresh).
Proof. vm_compute. reflexivity. Qed.

(** * The further properties on the sample features *)

Lemma not_inherited (k : string) :
  bool_decide (k ∈ Object_prototype) = false -> k ∉ Object_prototype.
Proof. apply bool_decide_eq_false. Qed.

(** X1 on the crew route. *)
Lemma route_unknown_method_witness :
  call crewRoute enterprise "nonExistent" (VObject []) fresh
    = (Err (PlainError ("Method " +:+ "nonExistent" +:+ " not found")), fresh)
  /\ contains ("Method " +:+ "nonExistent" +:+ " not found") "nonExistent".
Proof.
  apply (route_unknown_method crewFeature crewImpl enterprise "nonExistent" (VObject []) fresh).
  - reflexivity.
  - apply not_inherited. vm_compute. reflexivity.
Defined.

(** X2 on the crew router. *)
Lemma router_rejects_bad_envelope_witness :
  crewRouter enterprise (VObject [("invalid", VString "payload")]) fresh
  = (Err (SchemaError "Expected string"), fresh).
Proof.
  apply (router_rejects_bad_envelope crewRoutes enterprise
           (VObject [("invalid", VString "payload")]) (SchemaError "Expected string") fresh).
  reflexivity.
Defined.

(** X3 on the crew router. *)
Lemma router_unknown_feature_witness :
  crewRouter enterprise (envelope "nonExistent" "someMethod" (VObject [])) fresh
    = (Err (PlainError ("Feature " +:+ "nonExistent" +:+ " not found")), fresh)
  /\ contains ("Feature " +:+ "nonExistent" +:+ " not found") "nonExistent".
Proof.
  apply (router_unknown_feature crewRoutes enterprise
           (envelope "nonExistent" "someMethod" (VObject []))
           {| CableInput.feature := "nonExistent"; CableInput.method := "someMethod";
              CableInput.input := VObject [] |} fresh).
  - reflexivity.
  - reflexivity.
  - apply not_inherited. vm_compute. reflexivity.
Defined.

(** X4 on an implementation that binds nothing. *)
Lemma route_missing_implementation_witness :
  call (makeRoute crewFeature bareImpl) enterprise "getOfficer" id1 fresh
  = (Err (PlainError ("Method implementation for " +:+ "crew" +:+ "." +:+ "getOfficer"
                        +:+ " not found")),
     {| trace := [FactoryCall enterprise]; host := tt |}).
Proof.
  apply (route_missing_implementation crewFeature bareImpl enterprise "getOfficer"
           (to (transform (S_schema [("id", S_number)])) officerSchema)
           id1 id1 ∅ tt fresh).
  - reflexivity.
  - reflexivity.
  - reflexivity.
  - reflexivity.
  - apply not_inherited. vm_compute. reflexivity.
Defined.

(** X5 on a factory that throws. *)
Lemma route_factory_failure_witness :
  call (makeRoute crewFeature lockedImpl) enterprise "getOfficer" id1 fresh
  = (Err (PlainError "Unauthorized"), {| trace := [FactoryCall enterprise]; host := tt |}).
Proof.
  apply (route_factory_failure crewFeature lockedImpl enterprise "getOfficer"
           (to (transform (S_schema [("id", S_number)])) officerSchema)
           id1 id1 (PlainError "Unauthorized") tt fresh).
  all: reflexivity.
Defined.

(** X6 on a profile that does not exist. *)
Lemma route_implementation_failure_witness :
  call userRoute users "getProfile" id42 fresh
  = (Err (PlainError "User not found"),
     {| trace := [FactoryCall users; MethodCall "getProfile" id42]; host := tt |}).
Proof.
  apply (route_implementation_failure userFeature userImpl users "getProfile"
           (to (transform (S_schema [("id", S_number)]))
               (S_schema [("id", S_number); ("name", S_string)]))
           id42 id42
           {[ "getProfile" := fun input s' =>
                match Map_get users (get_field input "id") with
                | VUndefined => (Err (PlainError "User not found"), s')
                | user => (Ok user, s')
                end ]}
           (fun input s' =>
              match Map_get users (get_field input "id") with
              | VUndefined => (Err (PlainError "User not found"), s')
              | user => (Ok user, s')
              end)
           (PlainError "User not found") tt tt fresh).
  all: reflexivity.
Defined.

(** X7 on an officer that does not exist: the method returns [undefined]. *)
Lemma route_output_validation_witness :
  call crewRoute enterprise "getOfficer" (VObject [("id", VNumber (Int 2))]) fresh
  = (Err (SchemaError "Expected object"),
     {| trace := [FactoryCall enterprise;
                  MethodCall "getOfficer" (VObject [("id", VNumber (Int 2))])];
        host := tt |}).
Proof.
  apply (route_output_validation crewFeature crewImpl enterprise "getOfficer"
           (to (transform (S_schema [("id", S_number)])) officerSchema)
           (VObject [("id", VNumber (Int 2))]) (VObject [("id", VNumber (Int 2))]) VUndefined
           {[ "getOfficer" := fun input s' => (Ok (Map_get enterprise (get_field input "id")), s') ]}
           (fun input s' => (Ok (Map_get enterprise (get_field input "id")), s'))
           (SchemaError "Expected object") tt tt fresh).
  all: reflexivity.
Defined.

(** X8 on an argument with a property that the input schema does not
    declare: the method is called without it. *)
Lemma route_call_success_witness :
  call crewRoute enterprise "getOfficer"
    (VObject [("id", VNumber (Int 1)); ("debug", VBool true)]) fresh
  = (Ok (JSON.stringify picard),
     {| trace := [FactoryCall enterprise; MethodCall "getOfficer" id1]; host := tt |}).
Proof.
  apply (route_call_success crewFeature crewImpl enterprise "getOfficer"
           (to (transform (S_schema [("id", S_number)])) officerSchema)
           (VObject [("id", VNumber (Int 1)); ("debug", VBool true)]) id1 picard picard
           {[ "getOfficer" := fun input s' => (Ok (Map_get enterprise (get_field input "id")), s') ]}
           (fun input s' => (Ok (Map_get enterprise (get_field input "id")), s'))
           tt tt fresh).
  all: reflexivity.
Defined.

(** X9 on a router with and without the crew route. *)
Lemma router_isolation_witness :
  makeRouter stationRoutes users (envelope "user" "getProfile" id1) fresh
  = makeRouter userRoutes users (envelope "user" "getProfile" id1) fresh.
Proof.
  apply (router_isolation stationRoutes userRoutes users
           (envelope "user" "getProfile" id1) fresh).
  intros p Hp. injection Hp as <-. reflexivity.
Defined.

(** X10 on the request of the cable test. *)
Lemma cable_sends_one_request_witness :
  match mockedCable success_response with
  | Ok cable =>
      cable "user" "getProfile" id42 signed_in
        = (Ok (VObject [("success", VBool true)]),
           {| trace := [FetchCall "https://api.example.com/rpc"
                          {| RequestInit.headers :=
                               [("Content-Type", "application/json");
                                ("Authorization", "Bearer test-token-123")];
                             RequestInit.method := "POST";
                             RequestInit.body :=
                               JSON.stringify (envelope "user" "getProfile" id42) |}];
              host := Some "test-token-123" |})
      /\ (exists body, JSON.stringify (envelope "user" "getProfile" id42) = VString body)
      /\ (representable id42 = true \/ id42 = VUndefined ->
          exists payload,
            JSON.parse (JSON.stringify (envelope "user" "getProfile" id42)) = Ok payload
            /\ cableSchema payload
               = Ok {| CableInput.feature := "user"; CableInput.method := "getProfile";
                       CableInput.input := id42 |})
  | Err _ => False
  end.
Proof.
  destruct (mockedCable success_response) as [cable | e] eqn:Hc.
  - apply (cable_sends_one_request (H := mock_host unit (option string) success_response)
             "https://api.example.com/rpc" (fun token => token) cable
             "user" "getProfile" "test-token-123" id42 signed_in).
    + left. exact Hc.
    + reflexivity.
    + discriminate.
    + reflexivity.
  - discriminate Hc.
Defined.

(** X11 on the failed response of the cable test. *)
Lemma cable_failed_response_witness :
  match mockedCable failure_response with
  | Ok cable =>
      cable "user" "getProfile" id42 signed_in
        = (Err (PlainError ("Failed to call " +:+ "user" +:+ "." +:+ "getProfile" +:+ ": "
                              +:+ statusText failure_response)),
           {| trace := trace signed_in
                         ++ [FetchCall "https://api.example.com/rpc"
                               (cable_request "test-token-123" "user" "getProfile" id42)];
              host := Some "test-token-123" |})
      /\ contains ("Failed to call " +:+ "user" +:+ "." +:+ "getProfile" +:+ ": "
                     +:+ statusText failure_response)
           ("user" +:+ "." +:+ "getProfile")
      /\ contains ("Failed to call " +:+ "user" +:+ "." +:+ "getProfile" +:+ ": "
                     +:+ statusText failure_response)
           (statusText failure_response)
  | Err _ => False
  end.
Proof.
  destruct (mockedCable failure_response) as [cable | e] eqn:Hc.
  - apply (cable_failed_response (H := mock_host unit (option string) failure_response)
             "https://api.example.com/rpc" (fun token => token) cable
             "user" "getProfile" "test-token-123" id42 failure_response
             (Some "test-token-123") signed_in).
    + left. exact Hc.
    + reflexivity.
    + discriminate.
    + reflexivity.
    + reflexivity.
    + reflexivity.
  - discriminate Hc.
Defined.

(** X12 on the successful response of the cable test. *)
Lemma cable_successful_response_witness :
  match mockedCable success_response with
  | Ok cable =>
      cable "user" "getProfile" id42 signed_in
        = (fst (json success_response (Some "test-token-123")),
           {| trace := trace signed_in
                         ++ [FetchCall "https://api.example.com/rpc"
                               (cable_request "test-token-123" "user" "getProfile" id42)];
              host := snd (json success_response (Some "test-token-123")) |})
  | Err _ => False
  end.
Proof.
  destruct (mockedCable success_response) as [cable | e] eqn:Hc.
  - apply (cable_successful_response (H := mock_host unit (option string) success_response)
             "https://api.example.com/rpc" (fun token => token) cable
             "user" "getProfile" "test-token-123" id42 success_response
             (Some "test-token-123") signed_in).
    + left. exact Hc.
    + reflexivity.
    + discriminate.
    + reflexivity.
    + reflexivity.
    + reflexivity.
  - discriminate Hc.
Defined.

(** X13 on the host without network. *)
Lemma cable_fetch_failure_witness :
  match sampleCable with
  | Ok cable =>
      cable "user" "getProfile" id42 signed_in
        = (Err (TypeError "fetch failed"),
           {| trace := trace signed_in
                         ++ [FetchCall "https://api.example.com/rpc"
                               (cable_request "test-token-123" "user" "getProfile" id42)];
              host := Some "test-token-123" |})
  | Err _ => False
  end.
Proof.
  destruct sampleCable as [cable | e] eqn:Hc.
  - apply (cable_fetch_failure (H := sample_host unit (option string))
             "https://api.example.com/rpc" (fun token => token) cable
             "user" "getProfile" "test-token-123" id42 (TypeError "fetch failed")
             (Some "test-token-123") signed_in).
    + left. exact Hc.
    + reflexivity.
    + discriminate.
    + reflexivity.
    + reflexivity.
  - discriminate Hc.
Defined.

(** X14 on the sample cable. *)
Lemma cable_empty_token_witness :
  match sampleCable with
  | Ok cable =>
      cable "user" "getProfile" id42 {| trace := []; host := Some "" |}
        = (Err (PlainError "User not authenticated, cannot call cable without a token"),
           {| trace := []; host := Some "" |})
  | Err _ => False
  end.
Proof.
  destruct sampleCable as [cable | e] eqn:Hc.
  - apply (cable_empty_token (H := sample_host unit (option string))
             (Some "https://api.example.com/rpc") (fun token => token) cable
             "user" "getProfile" id42 {| trace := []; host := Some "" |}).
    + left. exact Hc.
    + reflexivity.
  - discriminate Hc.
Defined.

(** X19 on a token with a line feed in it. *)
Lemma cable_invalid_token_witness :
  match sampleCable with
  | Ok cable =>
      cable "user" "getProfile" id42
        {| trace := []; host := Some (String "a" (String JSON.LF "b")) |}
        = (Err (TypeError
                  (@invalid_header unit (option string) (sample_host unit (option string))
                     "Authorization" ("Bearer " +:+ String "a" (String JSON.LF "b")))),
           {| trace := []; host := Some (String "a" (String JSON.LF "b")) |})
  | Err _ => False
  end.
Proof.
  destruct sampleCable as [cable | e] eqn:Hc.
  - apply (cable_invalid_token (H := sample_host unit (option string))
             "https://api.example.com/rpc" (fun token => token) cable
             "user" "getProfile" (String "a" (String JSON.LF "b")) id42
             {| trace := []; host := Some (String "a" (String JSON.LF "b")) |}).
    + left. exact Hc.
    + reflexivity.
    + discriminate.
    + reflexivity.
  - discriminate Hc.
Defined.

(** X16 on the user feature, signed out. *)
Lemma remote_over_cable_unauthenticated_witness :
  match sampleCable with
  | Ok cable =>
      makeRemote userFeature cable "getProfile" (VObject [("id", VString "not-a-number")])
        signed_out
      = (Err (SchemaError "Expected number"), signed_out)
      /\
      makeRemote userFeature cable "getProfile" id42 signed_out
      = (Err (PlainError "User not authenticated, cannot call cable without a token"),
         {| trace := [CableCall "user" "getProfile" id42]; host := None |})
  | Err _ => False
  end.
Proof.
  destruct sampleCable as [cable | e] eqn:Hc.
  - split.
    + apply (remote_over_cable_unauthenticated (H := sample_host unit (option string))
               userFeature (Some "https://api.example.com/rpc") (fun token => token) cable
               "getProfile"
               (to (transform (S_schema [("id", S_number)]))
                   (S_schema [("id", S_number); ("name", S_string)]))
               (VObject [("id", VString "not-a-number")]) signed_out).
      * left. exact Hc.
      * reflexivity.
    + apply (remote_over_cable_unauthenticated (H := sample_host unit (option string))
               userFeature (Some "https://api.example.com/rpc") (fun token => token) cable
               "getProfile"
               (to (transform (S_schema [("id", S_number)]))
                   (S_schema [("id", S_number); ("name", S_string)]))
               id42 signed_out).
      * left. exact Hc.
      * reflexivity.
      * reflexivity.
  - discriminate Hc.
Defined.

(** X18 on a profile that does not exist. *)
Lemma remote_propagates_implementation_failure_witness :
  makeRemote userFeature (routerCable (makeRouter userRoutes) users) "getProfile" id42 fresh
  = (Err (PlainError "User not found"),
     {| trace := trace fresh ++ [CableCall "user" "getProfile" id42;
                                 RouteCall "user" users "getProfile" id42;
                                 FactoryCall users;
                                 MethodCall "getProfile" id42];
        host := tt |}).
Proof.
  apply (remote_propagates_implementation_failure userFeature userImpl userRoutes users
           "getProfile"
           (to (transform (S_schema [("id", S_number)]))
               (S_schema [("id", S_number); ("name", S_string)]))
           id42 id42 id42
           {[ "getProfile" := fun input s' =>
                match Map_get users (get_field input "id") with
                | VUndefined => (Err (PlainError "User not found"), s')
                | user => (Ok user, s')
                end ]}
           tt tt
           (fun input s' =>
              match Map_get users (get_field input "id") with
              | VUndefined => (Err (PlainError "User not found"), s')
              | user => (Ok user, s')
              end)
           (PlainError "User not found") fresh).
  all: reflexivity.
Defined.

(** X17 on the mocked reply [{ success: true }], which is not a profile:
    the proxy rejects it. *)
Lemma remote_over_cable_reply_witness :
  match mockedCable success_response with
  | Ok cable =>
      makeRemote userFeature cable "getProfile" id42 signed_in
      = (Err (SchemaError "Expected number"),
         {| trace := trace signed_in
                       ++ [CableCall "user" "getProfile" id42;
                           FetchCall "https://api.example.com/rpc"
                             (cable_request "test-token-123" "user" "getProfile" id42)];
            host := Some "test-token-123" |})
  | Err _ => False
  end.
Proof.
  destruct (mockedCable success_response) as [cable | e] eqn:Hc.
  - apply (remote_over_cable_reply (H := mock_host unit (option string) success_response)
             userFeature "https://api.example.com/rpc" (fun token => token) cable
             "getProfile" "test-token-123"
             (to (transform (S_schema [("id", S_number)]))
                 (S_schema [("id", S_number); ("name", S_string)]))
             id42 id42 (VObject [("success", VBool true)]) success_response
             (Some "test-token-123") (Some "test-token-123") signed_in).
    + left. exact Hc.
    + reflexivity.
    + reflexivity.
    + reflexivity.
    + discriminate.
    + reflexivity.
    + reflexivity.
    + reflexivity.
    + reflexivity.
  - discriminate Hc.
Defined.
